(** * The webhook-worker controller of [internal/services/webhooks]

    A shallow embedding of [webhooks.go]: the controller state
    ([registeredWorkerIds], [cleanups]), the goroutines it spawns (the
    per-worker monitors), the closures it hands out (release functions) and
    the calls it makes to its collaborators (repositories, token issuer,
    HTTP client, worker transport), followed by the properties of the
    specification that the code decides. *)

From Stdlib Require Import ZArith String List Lia.
From stdpp Require Import base option list sorting strings pretty gmap.

Local Open Scope Z_scope.

Module webhooks.

(** ** Errors and call results *)

(** A Go [error]: one produced by a collaborator, or one built by
    [fmt.Errorf("<msg>: %w", err)]. *)
Inductive error : Type :=
| errorString (msg : string)
| wrapError (msg : string) (err : error).

(** [err.Error()] *)
Fixpoint Error (e : error) : string :=
  match e with
  | errorString msg => msg
  | wrapError msg err => msg +:+ ": " +:+ Error err
  end.

(** What a [panic] carries. *)
Inductive panicValue : Type :=
| nilFuncCall                 (* calling a nil [func() error] *)
| panicError (e : error).     (* [panic(err)] *)

(** How a call ends.  [Unfinished] is the fuel of [call] running out. *)
Inductive outcome (A : Type) : Type :=
| Returned (a : A)
| Panicked (v : panicValue)
| Unfinished.
Arguments Returned {A} a.
Arguments Panicked {A} v.
Arguments Unfinished {A}.

(** ** Data *)

(** [db.WebhookWorkerModel], the fields the controller reads. *)
Record WebhookWorkerModel : Type := {
  ID : string;
  URL : string;
  Secret : string;
}.

Record HealthCheckResponse : Type := {
  Actions : list string;
  Workflows : list string;
}.

(** [webhook.WorkerOpts] *)
Record WorkerOpts : Type := {
  optToken : string;
  optID : string;
  optSecret : string;
  optURL : string;
  optTenantID : string;
  optActions : list string;
  optWorkflows : list string;
}.

(** A [func() error] value: nil, the release function a started transport
    returned, or one of the two closures of this file. *)
Inductive release : Type :=
| nilFunc
| workerCleanup (t : nat)     (* returned by the [t]-th successful [w.Start()] *)
| runCleanup (m : nat)        (* returned by the [run] that spawned monitor [m] *)
| startCleanup (s : nat).     (* returned by the [Start] that spawned scanner [s] *)

(** Calls to collaborators, in the order they were made. *)
Inductive effect : Type :=
| CallListTenants
| CallGenerateTenantToken (tenantId : string)
| CallListWebhookWorkers (tenantId : string)
| CallHealthcheck (ww : WebhookWorkerModel)       (* the [GET ww.URL] of [healthcheck] *)
| CallNewWorker (opts : WorkerOpts)               (* [webhook.NewWorker(opts)] *)
| CallWorkerStart (opts : WorkerOpts)             (* [w.Start()] on that worker *)
| CallRelease (t : nat)                           (* what the [t]-th started transport
                                                     returned from [Start] is called *)
| CallUpdateWorker (tenantId workerId : string) (isActive : bool).

(** What [GET ww.URL] comes to, step by step as [healthcheck] reads it. *)
Inductive httpReply : Type :=
| BadRequest (e : error)                  (* [http.NewRequest] refuses *)
| NoReply (e : error)                     (* [http.DefaultClient.Do] fails *)
| Reply (status : Z) (body : error + (error + HealthCheckResponse)).
    (* [io.ReadAll] fails, or the bytes read; [json.Unmarshal] fails, or
       the manifest *)

(** The collaborators.  Each answer may depend on every call made so far. *)
Record Env : Type := {
  ListTenants : list effect -> error + list string;
  GenerateTenantToken : list effect -> string -> error + string;
  ListWebhookWorkers : list effect -> string -> error + list WebhookWorkerModel;
  httpGet : list effect -> WebhookWorkerModel -> httpReply;
  NewWorker : list effect -> WorkerOpts -> option error;
  WorkerStart : list effect -> WorkerOpts -> option error;
  releaseWorker : list effect -> nat -> option error;
  UpdateWorker : list effect -> string -> string -> bool -> option error;
}.

(** ** [hash] *)

(** [slices.Sort] on [[]string]: ascending in Go's [<] on strings, the
    bytewise lexicographic order. *)
Definition Sort (s : list string) : list string := merge_sort String.le s.

(** [strings.Join] *)
Definition Join (elems : list string) (sep : string) : string :=
  String.concat sep elems.

(** [n := s] copies the slice header only, so the sort also reorders the
    caller's slice; the string returned is that of the sorted elements. *)
Definition hash (s : list string) : string :=
  let n := s in
  Join (Sort n) ",".

(** ** State *)

(** Go's [int] on the 64-bit targets the server is built for. *)
Definition wrapInt (z : Z) : Z := (z + 2 ^ 63) mod 2 ^ 64 - 2 ^ 63.

(** The goroutine [run] spawns, with the variables of that [run] call it
    shares with the closure [run] returns ([cleanups], [ctx]). *)
Record monitor : Type := {
  monTenantId : string;
  monWW : WebhookWorkerModel;
  monToken : string;
  monCleanups : list release;     (* [run]'s local [cleanups] *)
  wfsHashLast : string;
  actionsHashLast : string;
  healthCheckErrors : Z;
  timerC : bool;                  (* [timer.C] still has its value to deliver *)
  ctxDone : bool;                 (* [cancel()] was called *)
  returned : bool;                (* the goroutine has returned *)
}.

(** The goroutine [Start] spawns. *)
Record scanner : Type := {
  scanCtxDone : bool;
  scanReturned : bool;
}.

Record World : Type := {
  registeredWorkerIds : gmap string bool;   (* [c.registeredWorkerIds] *)
  cleanups : list release;                  (* [c.cleanups] *)
  scanners : list scanner;
  monitors : list monitor;
  transports : list WorkerOpts;             (* transports started, oldest first *)
  history : list effect;                    (* collaborator calls, oldest first *)
  logs : list string;
  panicked : option panicValue;             (* the process died of a panic *)
}.

(** [New] *)
Definition New : World :=
  {| registeredWorkerIds := ∅; cleanups := []; scanners := []; monitors := [];
     transports := []; history := []; logs := []; panicked := None |}.

Definition setRegistered (f : gmap string bool -> gmap string bool) (w : World) : World :=
  {| registeredWorkerIds := f (registeredWorkerIds w); cleanups := cleanups w;
     scanners := scanners w; monitors := monitors w; transports := transports w;
     history := history w; logs := logs w; panicked := panicked w |}.

Definition setCleanups (f : list release -> list release) (w : World) : World :=
  {| registeredWorkerIds := registeredWorkerIds w; cleanups := f (cleanups w);
     scanners := scanners w; monitors := monitors w; transports := transports w;
     history := history w; logs := logs w; panicked := panicked w |}.

Definition setScanners (f : list scanner -> list scanner) (w : World) : World :=
  {| registeredWorkerIds := registeredWorkerIds w; cleanups := cleanups w;
     scanners := f (scanners w); monitors := monitors w; transports := transports w;
     history := history w; logs := logs w; panicked := panicked w |}.

Definition setMonitors (f : list monitor -> list monitor) (w : World) : World :=
  {| registeredWorkerIds := registeredWorkerIds w; cleanups := cleanups w;
     scanners := scanners w; monitors := f (monitors w); transports := transports w;
     history := history w; logs := logs w; panicked := panicked w |}.

Definition setTransports (f : list WorkerOpts -> list WorkerOpts) (w : World) : World :=
  {| registeredWorkerIds := registeredWorkerIds w; cleanups := cleanups w;
     scanners := scanners w; monitors := monitors w; transports := f (transports w);
     history := history w; logs := logs w; panicked := panicked w |}.

Definition setPanicked (v : panicValue) (w : World) : World :=
  {| registeredWorkerIds := registeredWorkerIds w; cleanups := cleanups w;
     scanners := scanners w; monitors := monitors w; transports := transports w;
     history := history w; logs := logs w; panicked := Some v |}.

(** A collaborator was called. *)
Definition record (e : effect) (w : World) : World :=
  {| registeredWorkerIds := registeredWorkerIds w; cleanups := cleanups w;
     scanners := scanners w; monitors := monitors w; transports := transports w;
     history := history w ++ [e]; logs := logs w; panicked := panicked w |}.

(** [log.Printf] and [c.sc.Logger.Printf].  ([c.sc.Logger.Err(err)] only
    builds an event; the code never sends it, so nothing is written
    there.) *)
Definition logf (line : string) (w : World) : World :=
  {| registeredWorkerIds := registeredWorkerIds w; cleanups := cleanups w;
     scanners := scanners w; monitors := monitors w; transports := transports w;
     history := history w; logs := logs w ++ [line]; panicked := panicked w |}.

Definition setMonCleanups (cs : list release) (mon : monitor) : monitor :=
  {| monTenantId := monTenantId mon; monWW := monWW mon; monToken := monToken mon;
     monCleanups := cs; wfsHashLast := wfsHashLast mon;
     actionsHashLast := actionsHashLast mon;
     healthCheckErrors := healthCheckErrors mon; timerC := timerC mon;
     ctxDone := ctxDone mon; returned := returned mon |}.

Definition setHashLast (wfs actions : string) (mon : monitor) : monitor :=
  {| monTenantId := monTenantId mon; monWW := monWW mon; monToken := monToken mon;
     monCleanups := monCleanups mon; wfsHashLast := wfs; actionsHashLast := actions;
     healthCheckErrors := healthCheckErrors mon; timerC := timerC mon;
     ctxDone := ctxDone mon; returned := returned mon |}.

Definition setHealthCheckErrors (n : Z) (mon : monitor) : monitor :=
  {| monTenantId := monTenantId mon; monWW := monWW mon; monToken := monToken mon;
     monCleanups := monCleanups mon; wfsHashLast := wfsHashLast mon;
     actionsHashLast := actionsHashLast mon; healthCheckErrors := n;
     timerC := timerC mon; ctxDone := ctxDone mon; returned := returned mon |}.

(** The value of [timer.C] was received.  The timer is a [time.NewTimer]
    that is never [Reset]: it sends once. *)
Definition receiveTimer (mon : monitor) : monitor :=
  {| monTenantId := monTenantId mon; monWW := monWW mon; monToken := monToken mon;
     monCleanups := monCleanups mon; wfsHashLast := wfsHashLast mon;
     actionsHashLast := actionsHashLast mon;
     healthCheckErrors := healthCheckErrors mon; timerC := false;
     ctxDone := ctxDone mon; returned := returned mon |}.

(** [cancel()] of the monitor's context *)
Definition cancelMonitor (mon : monitor) : monitor :=
  {| monTenantId := monTenantId mon; monWW := monWW mon; monToken := monToken mon;
     monCleanups := monCleanups mon; wfsHashLast := wfsHashLast mon;
     actionsHashLast := actionsHashLast mon;
     healthCheckErrors := healthCheckErrors mon; timerC := timerC mon;
     ctxDone := true; returned := returned mon |}.

(** [return] from the goroutine; the deferred [timer.Stop()] runs. *)
Definition returnMonitor (mon : monitor) : monitor :=
  {| monTenantId := monTenantId mon; monWW := monWW mon; monToken := monToken mon;
     monCleanups := monCleanups mon; wfsHashLast := wfsHashLast mon;
     actionsHashLast := actionsHashLast mon;
     healthCheckErrors := healthCheckErrors mon; timerC := false;
     ctxDone := ctxDone mon; returned := true |}.

Definition updMonitor (m : nat) (f : monitor -> monitor) (w : World) : World :=
  setMonitors (alter f m) w.

(** ** [healthcheck] *)

Definition healthcheck (env : Env) (ww : WebhookWorkerModel) (w : World)
  : World * (error + HealthCheckResponse) :=
  (record (CallHealthcheck ww) w,
   match httpGet env (history w) ww with
   | BadRequest err => inl (wrapError "could not create request" err)
   | NoReply err => inl (wrapError "could not send request" err)
   | Reply status body =>
       if negb (status =? 200) then
         inl (errorString ("request failed with status code " +:+ pretty status))
       else
         match body with
         | inl err => inl (wrapError "could not read response body" err)
         | inr (inl err) => inl (wrapError "could not unmarshal response body" err)
         | inr (inr res) => inr res
         end
   end).

(** ** [run] *)

Definition spawnMonitor (tenantId : string) (ww : WebhookWorkerModel)
    (token : string) (cs : list release) (h : HealthCheckResponse) : monitor :=
  {| monTenantId := tenantId; monWW := ww; monToken := token;
     monCleanups := cs;
     wfsHashLast := hash (Workflows h);
     actionsHashLast := hash (Actions h);
     healthCheckErrors := 0;
     timerC := true; ctxDone := false; returned := false |}.

Definition run (env : Env) (tenantId : string) (ww : WebhookWorkerModel)
    (token : string) (w : World) : World * (release * option error) :=
  let '(w, r) := healthcheck env ww w in
  match r with
  | inl err =>
      (w, (nilFunc,
           Some (wrapError ("webhook worker " +:+ ID ww +:+ " of tenant "
                            +:+ tenantId +:+ " healthcheck failed") err)))
  | inr h =>
      match registeredWorkerIds w !! ID ww with
      | Some _ => (w, (nilFunc, None))
      | None =>
          let w := setRegistered <[ID ww := true]> w in
          let opts := {| optToken := token; optID := ID ww; optSecret := Secret ww;
                         optURL := URL ww; optTenantID := tenantId;
                         optActions := Actions h; optWorkflows := Workflows h |} in
          let r := NewWorker env (history w) opts in
          let w := record (CallNewWorker opts) w in
          match r with
          | Some err => (w, (nilFunc, Some (wrapError "could not create webhook worker" err)))
          | None =>
              let r := WorkerStart env (history w) opts in
              let w := record (CallWorkerStart opts) w in
              match r with
              | Some err =>
                  (w, (nilFunc, Some (wrapError "could not start webhook worker" err)))
              | None =>
                  let cleanup := workerCleanup (length (transports w)) in
                  let w := setTransports (fun ts => ts ++ [opts]) w in
                  let cleanups := [] ++ [cleanup] in
                  let m := length (monitors w) in
                  let w := setMonitors
                             (fun ms => ms ++ [spawnMonitor tenantId ww token cleanups h]) w in
                  (w, (runCleanup m, None))
              end
          end
      end
  end.

(** ** Calling a [func() error] *)

(** [for _, cleanup := range cs { if err := cleanup(); err != nil { return
    fmt.Errorf(...) } }; return nil], the loop of both closures. *)
Fixpoint rangeReturn (callf : release -> World -> World * outcome (option error))
    (cs : list release) (w : World) : World * outcome (option error) :=
  match cs with
  | [] => (w, Returned None)
  | cleanup :: cs =>
      match callf cleanup w with
      | (w, Returned None) => rangeReturn callf cs w
      | (w, Returned (Some err)) =>
          (w, Returned (Some (wrapError "could not cleanup webhook worker" err)))
      | (w, Panicked v) => (w, Panicked v)
      | (w, Unfinished) => (w, Unfinished)
      end
  end.

Definition cancelScanner (sc : scanner) : scanner :=
  {| scanCtxDone := true; scanReturned := scanReturned sc |}.

Definition returnScanner (sc : scanner) : scanner :=
  {| scanCtxDone := scanCtxDone sc; scanReturned := true |}.

(** [f()].  A closure reads the variables it captured as they are when it
    is called: [runCleanup m] ranges over the [cleanups] of its [run] call,
    which the monitor may have replaced meanwhile.  A closure of a goroutine
    that was never spawned does not exist; it is [Unfinished] like a call
    out of fuel. *)
Fixpoint call (env : Env) (fuel : nat) (f : release) (w : World)
  : World * outcome (option error) :=
  match f with
  | nilFunc => (w, Panicked nilFuncCall)
  | workerCleanup t =>
      (record (CallRelease t) w, Returned (releaseWorker env (history w) t))
  | runCleanup m =>
      match fuel with
      | O => (w, Unfinished)
      | S fuel =>
          match monitors w !! m with
          | None => (w, Unfinished)
          | Some mon =>
              let w := updMonitor m cancelMonitor w in
              rangeReturn (call env fuel) (monCleanups mon) w
          end
      end
  | startCleanup s =>
      match fuel with
      | O => (w, Unfinished)
      | S fuel =>
          match scanners w !! s with
          | None => (w, Unfinished)
          | Some _ =>
              let w := setScanners (alter cancelScanner s) w in
              rangeReturn (call env fuel) (cleanups w) w
          end
      end
  end.

(** Closures nest at most as deep as there are goroutines. *)
Definition fuelOf (w : World) : nat := S (S (length (monitors w))).

(** ** The monitor goroutine of [run] *)

(** [for _, cleanup := range cleanups { if err := cleanup(); err != nil {
    c.sc.Logger.Err(...) } }], the loop of the restart: an error is made
    into an event that is never sent, and the loop goes on. *)
Fixpoint rangeLog (callf : release -> World -> World * outcome (option error))
    (cs : list release) (w : World) : World * outcome unit :=
  match cs with
  | [] => (w, Returned ())
  | cleanup :: cs =>
      match callf cleanup w with
      | (w, Returned None) => rangeLog callf cs w
      | (w, Returned (Some err)) => rangeLog callf cs w
      | (w, Panicked v) => (w, Panicked v)
      | (w, Unfinished) => (w, Unfinished)
      end
  end.

(** [c.sc.EngineRepository.Worker().UpdateWorker(...)]; its error goes to
    [c.sc.Logger.Err], which writes nothing. *)
Definition updateWorker (env : Env) (tenantId workerId : string) (isActive : bool)
    (w : World) : World :=
  let r := UpdateWorker env (history w) tenantId workerId isActive in
  let w := record (CallUpdateWorker tenantId workerId isActive) w in
  match r with
  | Some err => w
  | None => w
  end.

(** The body of [case <-timer.C:] for monitor [m]. *)
Definition tick (env : Env) (m : nat) (w : World) : World * outcome unit :=
  match monitors w !! m with
  | None => (w, Unfinished)
  | Some mon =>
      let tenantId := monTenantId mon in
      let ww := monWW mon in
      let '(w, r) := healthcheck env ww w in
      match r with
      | inl _ =>
          let n := wrapInt (healthCheckErrors mon + 1) in
          let w := updMonitor m (setHealthCheckErrors n) w in
          if 3 <? n then
            let w := logf ("webhook worker " +:+ ID ww +:+ " of tenant " +:+ tenantId
                           +:+ " failed 3 health checks, marking as inactive") w in
            let isActive := false in
            (updateWorker env tenantId (ID ww) isActive w, Returned ())
          else
            (logf ("webhook worker " +:+ ID ww +:+ " of tenant " +:+ tenantId
                   +:+ " failed one health check, retrying...") w, Returned ())
      | inr h =>
          let wfsHash := hash (Workflows h) in
          let actionsHash := hash (Actions h) in
          let w := logf ("wfsHash " +:+ wfsHash +:+ ", wfsHashLast " +:+ wfsHashLast mon) w in
          let w := logf ("actionsHash " +:+ actionsHash +:+ ", actionsHashLast "
                         +:+ actionsHashLast mon) w in
          if negb (String.eqb wfsHash (wfsHashLast mon))
             || negb (String.eqb actionsHash (actionsHashLast mon)) then
            let w := logf ("webhook worker " +:+ ID ww +:+ " of tenant " +:+ tenantId
                           +:+ " has changed, updating...") w in
            match rangeLog (call env (fuelOf w)) (monCleanups mon) w with
            | (w, Returned _) =>
                let '(w, (newCleanup, err)) := run env tenantId ww (monToken mon) w in
                let w := match err with
                         | Some err => w      (* [c.sc.Logger.Err(...)] *)
                         | None => w
                         end in
                let w := updMonitor m (setMonCleanups [newCleanup]) w in
                (updMonitor m returnMonitor w, Returned ())
            | (w, Panicked v) => (w, Panicked v)
            | (w, Unfinished) => (w, Unfinished)
            end
          else
            let w := updMonitor m (setHashLast wfsHash actionsHash) w in
            let w := if 0 <? healthCheckErrors mon then
                       logf ("webhook worker " +:+ ID ww +:+ " is healthy again") w
                     else w in
            let isActive := true in
            let w := updateWorker env tenantId (ID ww) isActive w in
            (updMonitor m (setHealthCheckErrors 0) w, Returned ())
      end
  end.

(** ** [check] *)

(** [for _, ww := range wws] *)
Fixpoint checkWorkers (env : Env) (tenantId token : string)
    (wws : list WebhookWorkerModel) (w : World) : World :=
  match wws with
  | [] => w
  | ww :: wws =>
      let '(w, (cleanup, err)) := run env tenantId ww token w in
      match err with
      | Some err =>
          checkWorkers env tenantId token wws
            (logf ("error running webhook worker: " +:+ Error err) w)
      | None =>
          checkWorkers env tenantId token wws
            match cleanup with
            | nilFunc => w
            | _ => setCleanups (fun cs => cs ++ [cleanup]) w
            end
      end
  end.

(** [for _, tenant := range tenants] *)
Fixpoint checkTenants (env : Env) (tenants : list string) (w : World)
  : World * outcome (option error) :=
  match tenants with
  | [] => (w, Returned None)
  | tenantId :: tenants =>
      let r := GenerateTenantToken env (history w) tenantId in
      let w := record (CallGenerateTenantToken tenantId) w in
      match r with
      | inl err =>
          (w, Panicked (panicError
                 (errorString ("could not generate default token: " +:+ Error err))))
      | inr token =>
          let r := ListWebhookWorkers env (history w) tenantId in
          let w := record (CallListWebhookWorkers tenantId) w in
          match r with
          | inl err => (w, Returned (Some (wrapError "could not get webhook workers" err)))
          | inr wws => checkTenants env tenants (checkWorkers env tenantId token wws w)
          end
      end
  end.

Definition check (env : Env) (w : World) : World * outcome (option error) :=
  let r := ListTenants env (history w) in
  let w := record CallListTenants w in
  match r with
  | inl err => (w, Returned (Some (wrapError "could not list tenants" err)))
  | inr tenants => checkTenants env tenants w
  end.

(** ** [Start] and the goroutines *)

Definition Start (w : World) : World * (release * option error) :=
  let s := length (scanners w) in
  (setScanners (fun ss => ss ++ [{| scanCtxDone := false; scanReturned := false |}]) w,
   (startCleanup s, None)).

(** The [select] case a goroutine wakes up on. *)
Inductive wake : Type :=
| onDone       (* [<-ctx.Done()] *)
| onTimer.     (* [<-timer.C], [<-ticker.C] *)

(** One turn of the [for { select { ... } }] of monitor [m], when case [k] is
    ready.  [timer] is a [time.NewTimer]: its channel is ready until its one
    value has been received. *)
Definition monitorStep (env : Env) (m : nat) (k : wake) (w : World) : option World :=
  match monitors w !! m with
  | None => None
  | Some mon =>
      if returned mon then None
      else match k with
           | onDone =>
               if ctxDone mon then Some (updMonitor m returnMonitor w) else None
           | onTimer =>
               if timerC mon then
                 match tick env m (updMonitor m receiveTimer w) with
                 | (w, Returned _) => Some w
                 | (w, Panicked v) => Some (setPanicked v w)
                 | (_, Unfinished) => None
                 end
               else None
           end
  end.

(** One turn of the loop of scanner [s].  [ticker] is a [time.NewTicker]: its
    channel becomes ready again every 30 seconds. *)
Definition scannerStep (env : Env) (s : nat) (k : wake) (w : World) : option World :=
  match scanners w !! s with
  | None => None
  | Some sc =>
      if scanReturned sc then None
      else match k with
           | onDone =>
               if scanCtxDone sc then Some (setScanners (alter returnScanner s) w)
               else None
           | onTimer =>
               match check env w with
               | (w, Returned None) => Some w
               | (w, Returned (Some err)) =>
                   Some (logf ("error checking webhooks: " +:+ Error err) w)
               | (w, Panicked v) => Some (setPanicked v w)
               | (_, Unfinished) => None
               end
           end
  end.

(** What can happen next in the process.  A turn of a goroutine is one
    step: the code takes no lock, and what two goroutines do to the
    controller's fields inside one turn of each is not modelled. *)
Inductive op : Type :=
| opStart                           (* the owner calls [c.Start()] *)
| opShutdown (s : nat)              (* the owner calls what [Start] returned *)
| opScanner (s : nat) (k : wake)
| opMonitor (m : nat) (k : wake).

Definition exec (env : Env) (o : op) (w : World) : option World :=
  match panicked w with
  | Some _ => None
  | None =>
      match o with
      | opStart => Some (fst (Start w))
      | opShutdown s =>
          match call env (fuelOf w) (startCleanup s) w with
          | (w, Returned _) => Some w
          | (w, Panicked v) => Some (setPanicked v w)
          | (_, Unfinished) => None
          end
      | opScanner s k => scannerStep env s k w
      | opMonitor m k => monitorStep env m k w
      end
  end.

(** The worlds the process can be in. *)
Inductive reachable (env : Env) : World -> Prop :=
| reachable_New : reachable env New
| reachable_exec o w w' : reachable env w -> exec env o w = Some w' -> reachable env w'.

End webhooks.

Import webhooks.

(** * Vocabulary of the specification *)

#[global] Instance WebhookWorkerModel_eq_dec : EqDecision WebhookWorkerModel.
Proof. solve_decision. Defined.

#[global] Instance WorkerOpts_eq_dec : EqDecision WorkerOpts.
Proof. solve_decision. Defined.

#[global] Instance effect_eq_dec : EqDecision effect.
Proof. solve_decision. Defined.

(** [id] is in the RegisteredWorkerSet. *)
Definition registered (id : string) (w : World) : Prop :=
  is_Some (registeredWorkerIds w !! id).

(** The transports started, and the monitors spawned, under identity [id]. *)
Definition transportsOf (id : string) (w : World) : list WorkerOpts :=
  filter (fun o => optID o = id) (transports w).

Definition monitorsOf (id : string) (w : World) : list monitor :=
  filter (fun mon => ID (monWW mon) = id) (monitors w).

(** Whatever was started was started under a registered identity. *)
Definition registry_covers (w : World) : Prop :=
  (forall o, o ∈ transports w -> registered (optID o) w) /\
  (forall mon, mon ∈ monitors w -> registered (ID (monWW mon)) w).

(** ** Collaborators for the examples *)

Definition ok200 (actions workflows : list string) : httpReply :=
  Reply 200 (inr (inr {| Actions := actions; Workflows := workflows |})).

(** Collaborators that never fail, with the given tenants, workers and
    health endpoint. *)
Definition calmEnv (tenants : list string)
    (workers : string -> list WebhookWorkerModel)
    (get : list effect -> WebhookWorkerModel -> httpReply) : Env :=
  {| ListTenants := fun _ => inr tenants;
     GenerateTenantToken := fun _ tenantId => inr ("token-" +:+ tenantId);
     ListWebhookWorkers := fun _ tenantId => inr (workers tenantId);
     httpGet := get;
     NewWorker := fun _ _ => None;
     WorkerStart := fun _ _ => None;
     releaseWorker := fun _ _ => None;
     UpdateWorker := fun _ _ _ _ => None |}.

Definition worker1 : WebhookWorkerModel :=
  {| ID := "w1"; URL := "http://w1.example/hook"; Secret := "s1" |}.

(** A worker that answers every probe with the same manifest. *)
Definition steadyEnv : Env :=
  calmEnv ["t1"] (fun _ => [worker1]) (fun _ _ => ok200 ["a"; "b"] ["wf"]).

(** The world after [run] started [worker1] from [New]. *)
Definition started1 (env : Env) : World := (run env "t1" worker1 "token-t1" New).1.

(** What a probe of [ww] answers in world [w]. *)
Definition probe (env : Env) (ww : WebhookWorkerModel) (w : World)
  : error + HealthCheckResponse :=
  (healthcheck env ww w).2.

Definition failed {A} (r : error + A) : Prop :=
  match r with
  | inl _ => True
  | inr _ => False
  end.

(** The writes of the persisted active flag, oldest first. *)
Definition writeOf (e : effect) : option (string * string * bool) :=
  match e with
  | CallUpdateWorker tenantId workerId isActive => Some (tenantId, workerId, isActive)
  | _ => None
  end.

Definition writes (w : World) : list (string * string * bool) :=
  omap writeOf (history w).

(** The probes made, oldest first. *)
Definition probeOf (e : effect) : option WebhookWorkerModel :=
  match e with
  | CallHealthcheck ww => Some ww
  | _ => None
  end.

Definition probes (w : World) : list WebhookWorkerModel := omap probeOf (history w).

(** The successful or failed [w.Start()] calls, oldest first. *)
Definition startOf (e : effect) : option WorkerOpts :=
  match e with
  | CallWorkerStart opts => Some opts
  | _ => None
  end.

Definition starts (w : World) : list WorkerOpts := omap startOf (history w).

(** The releases of transport [t] so far. *)
Definition releasesOf (t : nat) (w : World) : list effect :=
  filter (fun e => e = CallRelease t) (history w).

(** A worker whose [k]-th probe (the startup probe is the 0-th) is answered
    by [replies k]. *)
Definition scriptedEnv (replies : nat -> httpReply) : Env :=
  calmEnv ["t1"] (fun _ => [worker1])
    (fun hist _ => replies (length (omap probeOf hist))).

(** Up at startup, unreachable ever after. *)
Definition downEnv : Env :=
  scriptedEnv (fun k => match k with
                        | O => ok200 ["a"; "b"] ["wf"]
                        | S _ => NoReply (errorString "connection refused")
                        end).

Definition worker2 : WebhookWorkerModel :=
  {| ID := "w2"; URL := "http://w2.example/hook"; Secret := "s2" |}.

(** Two workers of one tenant; the release function of the first transport
    fails. *)
Definition stubbornEnv : Env :=
  {| ListTenants := fun _ => inr ["t1"];
     GenerateTenantToken := fun _ tenantId => inr ("token-" +:+ tenantId);
     ListWebhookWorkers := fun _ _ => inr [worker1; worker2];
     httpGet := fun _ _ => ok200 ["a"] ["wf"];
     NewWorker := fun _ _ => None;
     WorkerStart := fun _ _ => None;
     releaseWorker := fun _ t => match t with
                                 | O => Some (errorString "stream closed")
                                 | S _ => None
                                 end;
     UpdateWorker := fun _ _ _ _ => None |}.

(** Two tenants; listing the workers of the first fails. *)
Definition brokenListingEnv : Env :=
  {| ListTenants := fun _ => inr ["t1"; "t2"];
     GenerateTenantToken := fun _ tenantId => inr ("token-" +:+ tenantId);
     ListWebhookWorkers := fun _ tenantId =>
       if String.eqb tenantId "t1" then inl (errorString "connection reset")
       else inr [worker2];
     httpGet := fun _ _ => ok200 ["a"] ["wf"];
     NewWorker := fun _ _ => None;
     WorkerStart := fun _ _ => None;
     releaseWorker := fun _ _ => None;
     UpdateWorker := fun _ _ _ _ => None |}.

(** The world after [Start] and one scan. *)
Definition scanned (env : Env) : World := (check env (Start New).1).1.

(** ** Change over time *)

(** What may become of a monitor: its worker stays, a spent timer stays
    spent, a cancelled context stays cancelled, and a goroutine that has
    returned stays so with the [cleanups] it left. *)
Definition monEvolves (a b : monitor) : Prop :=
  monTenantId b = monTenantId a /\ monWW b = monWW a /\ monToken b = monToken a /\
  (timerC b = true -> timerC a = true) /\
  (ctxDone a = true -> ctxDone b = true) /\
  (returned a = true -> returned b = true /\ monCleanups b = monCleanups a).

Definition monitorsEvolve (w w' : World) : Prop :=
  forall i a, monitors w !! i = Some a ->
              exists b, monitors w' !! i = Some b /\ monEvolves a b.

(** Nothing was registered, started or spawned. *)
Definition still (w w' : World) : Prop :=
  registeredWorkerIds w' = registeredWorkerIds w /\
  transports w' = transports w /\
  length (monitors w') = length (monitors w).

(** A schedule: what happens, in order; [None] when a step is not enabled. *)
Fixpoint execs (env : Env) (ops : list op) (w : World) : option World :=
  match ops with
  | [] => Some w
  | o :: ops =>
      match exec env o w with
      | Some w' => execs env ops w'
      | None => None
      end
  end.

(** Up with actions a, b at startup, and with a, b, c ever after. *)
Definition changedEnv : Env :=
  scriptedEnv (fun k => match k with
                        | O => ok200 ["a"; "b"] ["wf"]
                        | S _ => ok200 ["a"; "b"; "c"] ["wf"]
                        end).

(** [P] holds of the world a step leads to. *)
Definition after (o : option World) (P : World -> Prop) : Prop :=
  match o with
  | Some w => P w
  | None => False
  end.

(** ** The closures held *)

(** A release function that calls no closure of this file. *)
Definition flat (c : release) : Prop :=
  match c with
  | nilFunc | workerCleanup _ => True
  | runCleanup _ | startCleanup _ => False
  end.

(** Monitors hold flat release functions only, and the controller holds
    closures of monitors that exist. *)
Definition closures_wf (w : World) : Prop :=
  Forall (fun mon => Forall flat (monCleanups mon)) (monitors w) /\
  Forall (fun c => exists m, c = runCleanup m /\ (m < length (monitors w))%nat)
         (cleanups w).

(** No [cleanups] variable changed. *)
Definition sameClosures (w w' : World) : Prop :=
  cleanups w' = cleanups w /\
  monCleanups <$> monitors w' = monCleanups <$> monitors w.

(** No identity has two transports or two monitors. *)
Definition unique_per_id (w : World) : Prop :=
  forall id, (length (transportsOf id w) <= 1)%nat /\ (length (monitorsOf id w) <= 1)%nat.

(** ** More vocabulary *)

(** The delimiter of [hash] as a byte. *)
Definition comma : Ascii.ascii :=
  Eval cbv in match "," with String c _ => c | EmptyString => Ascii.zero end.

(** The string holds the delimiter of [hash]. *)
Fixpoint hasComma (s : string) : bool :=
  match s with
  | EmptyString => false
  | String c s => Ascii.eqb c comma || hasComma s
  end.

Definition commaFree (s : string) : Prop := hasComma s = false.

(** What [strings.Join] puts after an element: nothing after the last, the
    delimiter and the rest otherwise. *)
Definition joinTail (xs : list string) : string :=
  match xs with
  | [] => ""
  | _ :: _ => String comma (String.concat "," xs)
  end.

(** Up from the second probe on. *)
Definition lateEnv : Env :=
  scriptedEnv (fun k => match k with
                        | O => NoReply (errorString "connection refused")
                        | S _ => ok200 ["a"; "b"] ["wf"]
                        end).

(** A worker that is up, with a transport that does not start. *)
Definition refusingEnv : Env :=
  {| ListTenants := fun _ => inr ["t1"];
     GenerateTenantToken := fun _ tenantId => inr ("token-" +:+ tenantId);
     ListWebhookWorkers := fun _ _ => inr [worker1];
     httpGet := fun _ _ => ok200 ["a"] ["wf"];
     NewWorker := fun _ _ => None;
     WorkerStart := fun _ _ => Some (errorString "dial failed");
     releaseWorker := fun _ _ => None;
     UpdateWorker := fun _ _ _ _ => None |}.

(** The options [run] builds for a worker and the manifest it answered. *)
Definition optsOf (tenantId : string) (ww : WebhookWorkerModel) (token : string)
    (h : HealthCheckResponse) : WorkerOpts :=
  {| optToken := token; optID := ID ww; optSecret := Secret ww;
     optURL := URL ww; optTenantID := tenantId;
     optActions := Actions h; optWorkflows := Workflows h |}.

(** The transports [run] tried to create under identity [id], oldest first. *)
Definition newOf (e : effect) : option WorkerOpts :=
  match e with
  | CallNewWorker opts => Some opts
  | _ => None
  end.

Definition attemptsOf (id : string) (w : World) : list WorkerOpts :=
  filter (fun o => optID o = id) (omap newOf (history w)).

(** Identity [id], if registered, stays so, and nothing is tried, started or
    spawned under it. *)
Definition keeps (id : string) (w w' : World) : Prop :=
  registered id w ->
  registered id w' /\
  attemptsOf id w' = attemptsOf id w /\
  transportsOf id w' = transportsOf id w /\
  length (monitorsOf id w') = length (monitorsOf id w).

(** A schedule: start, one scan, one tick of the first monitor, shutdown. *)
Definition schedule1 : list op :=
  [opStart; opScanner 0 onTimer; opMonitor 0 onTimer; opShutdown 0].

(** [c.cleanups] was left alone. *)
Definition sameCleanups (w w' : World) : Prop := cleanups w' = cleanups w.

(** [c.cleanups] holds the closure of every monitor, in the order they were
    spawned, and nothing else. *)
Definition cleanups_cover (w : World) : Prop :=
  cleanups w = runCleanup <$> seq 0 (length (monitors w)).

(** [Start], then one scan. *)
Definition schedule0 : list op := [opStart; opScanner 0 onTimer].

(** The active flag was not written. *)
Definition noWrites (w w' : World) : Prop := writes w' = writes w.

(** The release functions of transports called, oldest first. *)
Definition releaseOf (e : effect) : option nat :=
  match e with
  | CallRelease t => Some t
  | _ => None
  end.

Definition releases (w : World) : list nat := omap releaseOf (history w).

(** Nothing of the controller changed. *)
Definition idle (w w' : World) : Prop :=
  registeredWorkerIds w' = registeredWorkerIds w /\
  transports w' = transports w /\
  monitors w' = monitors w /\
  cleanups w' = cleanups w.

(** The transport a [cleanups] variable still releases: that of the one
    release function [run] put there. *)
Definition transportIn (cs : list release) : option nat :=
  match cs with
  | [workerCleanup t] => Some t
  | _ => None
  end.

Definition transportOf (mon : monitor) : option nat := transportIn (monCleanups mon).

(** The tenants cannot be listed. *)
Definition noTenantsEnv : Env :=
  {| ListTenants := fun _ => inl (errorString "connection reset");
     GenerateTenantToken := fun _ tenantId => inr ("token-" +:+ tenantId);
     ListWebhookWorkers := fun _ _ => inr [worker1];
     httpGet := fun _ _ => ok200 ["a"] ["wf"];
     NewWorker := fun _ _ => None;
     WorkerStart := fun _ _ => None;
     releaseWorker := fun _ _ => None;
     UpdateWorker := fun _ _ _ _ => None |}.

(** No token is issued for the second tenant. *)
Definition noTokenEnv : Env :=
  {| ListTenants := fun _ => inr ["t1"; "t2"; "t3"];
     GenerateTenantToken := fun _ tenantId =>
       if String.eqb tenantId "t2" then inl (errorString "signing key missing")
       else inr ("token-" +:+ tenantId);
     ListWebhookWorkers := fun _ tenantId =>
       if String.eqb tenantId "t1" then inr [worker1] else inr [worker2];
     httpGet := fun _ _ => ok200 ["a"] ["wf"];
     NewWorker := fun _ _ => None;
     WorkerStart := fun _ _ => None;
     releaseWorker := fun _ _ => None;
     UpdateWorker := fun _ _ _ _ => None |}.

(** ** Counters and the persisted flag *)

(** The timer and the failure counter of a monitor. *)
Definition gauge (mon : monitor) : bool * Z := (timerC mon, healthCheckErrors mon).

(** A counter that has seen one failure at most, and none while the timer
    has still to fire. *)
Definition countedGauge (g : bool * Z) : Prop :=
  0 <= g.2 <= 1 /\ (g.1 = true -> g.2 = 0).

Definition counted (mon : monitor) : Prop := countedGauge (gauge mon).

(** No monitor has counted past one failure and no record was written
    inactive. *)
Definition never_inactive (w : World) : Prop :=
  Forall counted (monitors w) /\ Forall (fun x => x.2 = true) (writes w).

Definition keepsNeverInactive (w w' : World) : Prop :=
  never_inactive w -> never_inactive w'.

(** Every monitor there was is still there with its timer and counter. *)
Definition gaugesKept (w w' : World) : Prop :=
  forall i a, monitors w !! i = Some a ->
              exists b, monitors w' !! i = Some b /\ gauge b = gauge a.


(** [Start], one scan, and the first tick of the first monitor. *)
Definition schedule2 : list op := schedule0 ++ [opMonitor 0 onTimer].

(** * Properties *)

(** ** [hash] *)

Lemma Sort_Sorted (s : list string) : Sorted String.le (Sort s).
Proof. apply (Sorted_merge_sort String.le). Qed.

Lemma Sort_Permutation (s : list string) : Sort s ≡ₚ s.
Proof. apply (merge_sort_Permutation String.le). Qed.

Lemma Sort_perm (s1 s2 : list string) : s1 ≡ₚ s2 -> Sort s1 = Sort s2.
Proof.
  intros Hp.
  apply (Sorted_unique String.le); try apply Sort_Sorted.
  now rewrite !Sort_Permutation.
Qed.

(** Whatever algorithm sorts, the ascending arrangement of the elements is
    the one [Sort] returns. *)
Lemma Sort_unique (s n : list string) : Sorted String.le n -> n ≡ₚ s -> n = Sort s.
Proof.
  intros Hs Hp. apply (Sorted_unique String.le); [done|apply Sort_Sorted|].
  by rewrite Sort_Permutation.
Qed.

(** C8: a permutation of the input does not change [hash], which is the
    comma-joined list of the elements in ascending lexicographic order. *)
Theorem hash_order_independent (s1 s2 : list string) :
  s1 ≡ₚ s2 ->
  hash s1 = hash s2 /\
  exists n, Sorted String.le n /\ n ≡ₚ s1 /\ hash s1 = String.concat "," n.
Proof.
  intros Hp. split.
  - unfold hash. now rewrite (Sort_perm s1 s2 Hp).
  - exists (Sort s1). split; [apply Sort_Sorted|].
    split; [apply Sort_Permutation|reflexivity].
Qed.

Lemma hash_order_independent_witness :
  hash ["b"; "a"; "c"] = hash ["a"; "b"; "c"] /\
  exists n, Sorted String.le n /\ n ≡ₚ ["b"; "a"; "c"] /\
            hash ["b"; "a"; "c"] = String.concat "," n.
Proof. apply (hash_order_independent ["b"; "a"; "c"] ["a"; "b"; "c"]). apply perm_swap. Defined.

Example hash_abc : hash ["b"; "a"; "c"] = "a,b,c".
Proof. vm_compute. reflexivity. Qed.

(** ** [run] under the registration guard *)

Lemma run_registered env tenantId ww token w :
  registered (ID ww) w ->
  exists err, run env tenantId ww token w = (record (CallHealthcheck ww) w, (nilFunc, err)).
Proof.
  intros [b Hb]. unfold run, healthcheck.
  destruct (httpGet env (history w) ww) as [e|e|status body]; [eauto..|].
  destruct (negb (status =? 200)); [eauto|].
  destruct body as [e|[e|h]]; [eauto..|].
  cbn [record registeredWorkerIds]. rewrite Hb. eauto.
Qed.

(** What [run] can do to the world: nothing but the probe (and, when the
    transport fails to come up, the registration), or one registration, one
    transport and one monitor. *)
Lemma run_inv env tenantId ww token w w' c err :
  run env tenantId ww token w = (w', (c, err)) ->
  cleanups w' = cleanups w /\ scanners w' = scanners w /\ panicked w' = panicked w /\
  ((c = nilFunc /\ transports w' = transports w /\ monitors w' = monitors w /\
    (registeredWorkerIds w' = registeredWorkerIds w \/
     (registeredWorkerIds w !! ID ww = None /\ is_Some err /\
      registeredWorkerIds w' = <[ID ww := true]> (registeredWorkerIds w))))
   \/
   (exists h,
      registeredWorkerIds w !! ID ww = None /\
      c = runCleanup (length (monitors w)) /\ err = None /\
      registeredWorkerIds w' = <[ID ww := true]> (registeredWorkerIds w) /\
      transports w' =
        transports w ++ [{| optToken := token; optID := ID ww; optSecret := Secret ww;
                            optURL := URL ww; optTenantID := tenantId;
                            optActions := Actions h; optWorkflows := Workflows h |}] /\
      monitors w' =
        monitors w ++ [spawnMonitor tenantId ww token
                         [workerCleanup (length (transports w))] h])).
Proof.
  unfold run, healthcheck.
  destruct (httpGet env (history w) ww) as [e|e|status body];
    [intros [= <- <- <-]; cbn; auto 10..|].
  destruct (negb (status =? 200)); [intros [= <- <- <-]; cbn; auto 10|].
  destruct body as [e|[e|h]]; [intros [= <- <- <-]; cbn; auto 10..|].
  cbn [record registeredWorkerIds].
  destruct (registeredWorkerIds w !! ID ww) eqn:Hreg; [intros [= <- <- <-]; cbn; auto 10|].
  cbv zeta.
  destruct (NewWorker env _ _);
    [intros [= <- <- <-]; cbn; do 3 (split; [reflexivity|]); left; by eauto 10|].
  destruct (WorkerStart env _ _);
    [intros [= <- <- <-]; cbn; do 3 (split; [reflexivity|]); left; by eauto 10|].
  intros [= <- <- <-]; cbn. do 3 (split; [reflexivity|]). right. exists h. auto 10.
Qed.

Lemma filter_none {A} (P : A -> Prop) `{forall x, Decision (P x)} (l : list A) :
  (forall x, x ∈ l -> ~ P x) -> filter P l = [].
Proof.
  induction l as [|x l IH]; intros Hl; [reflexivity|].
  rewrite filter_cons_False by (apply Hl; left).
  apply IH. intros y Hy. apply Hl. now right.
Qed.

Lemma registered_record e id w : registered id (record e w) <-> registered id w.
Proof. reflexivity. Qed.

(** C6: under an identity that is already registered, [run] probes the
    endpoint and returns nil: nothing is registered, started, spawned,
    retained or logged.  When the world is the one a first, successful
    startup of that identity left, the identity has exactly one transport
    and one monitor after the second call. *)
Theorem run_registered_noop env tenantId ww token w :
  registered (ID ww) w ->
  (exists err,
     run env tenantId ww token w = (record (CallHealthcheck ww) w, (nilFunc, err))) /\
  (forall w0 tenantId0 ww0 token0 m,
     registry_covers w0 ->
     ID ww0 = ID ww ->
     run env tenantId0 ww0 token0 w0 = (w, (runCleanup m, None)) ->
     length (transportsOf (ID ww) (run env tenantId ww token w).1) = 1%nat /\
     length (monitorsOf (ID ww) (run env tenantId ww token w).1) = 1%nat).
Proof.
  intros Hreg. split; [by apply run_registered|].
  intros w0 tenantId0 ww0 token0 m [Hts Hms] Hid Hrun0.
  destruct (run_registered env tenantId ww token w Hreg) as [err ->]. cbn [fst].
  apply run_inv in Hrun0 as (_ & _ & _ & [(? & _)|(h & Hnone & _ & _ & _ & Ht & Hm)]);
    [discriminate|].
  unfold transportsOf, monitorsOf. cbn [record transports monitors].
  rewrite Ht, Hm, !filter_app, !length_app.
  rewrite (filter_none _ (transports w0)), (filter_none _ (monitors w0)).
  - rewrite !filter_cons_True by (cbn; congruence). done.
  - intros mon Hmon Heq. apply Hms in Hmon as [b Hb]. rewrite Heq, <- Hid in Hb. congruence.
  - intros o Ho Heq. apply Hts in Ho as [b Hb]. rewrite Heq, <- Hid in Hb. congruence.
Qed.

Lemma registry_covers_New : registry_covers New.
Proof. split; intros x Hx; inversion Hx. Qed.

Lemma run_registered_noop_witness :
  registered "w1" (started1 steadyEnv) /\
  (exists err,
     run steadyEnv "t1" worker1 "token-t1" (started1 steadyEnv)
     = (record (CallHealthcheck worker1) (started1 steadyEnv), (nilFunc, err))) /\
  length (transportsOf "w1"
            (run steadyEnv "t1" worker1 "token-t1" (started1 steadyEnv)).1) = 1%nat /\
  length (monitorsOf "w1"
            (run steadyEnv "t1" worker1 "token-t1" (started1 steadyEnv)).1) = 1%nat.
Proof.
  assert (Hreg : registered (ID worker1) (started1 steadyEnv))
    by (vm_compute; eexists; reflexivity).
  split; [exact Hreg|].
  destruct (run_registered_noop steadyEnv "t1" worker1 "token-t1" _ Hreg) as [HA HB].
  split; [exact HA|].
  apply (HB New "t1" worker1 "token-t1" 0%nat).
  - apply registry_covers_New.
  - reflexivity.
  - vm_compute. reflexivity.
Defined.

(** ** The monitor's tick *)

Lemma writes_record e w :
  writes (record e w) = writes w ++ match writeOf e with Some x => [x] | None => [] end.
Proof. unfold writes. cbn [record history]. rewrite omap_app. cbn. now destruct (writeOf e). Qed.

Lemma writes_updateWorker env tenantId workerId isActive w :
  writes (updateWorker env tenantId workerId isActive w)
  = writes w ++ [(tenantId, workerId, isActive)].
Proof.
  unfold updateWorker. destruct (UpdateWorker env _ _ _ _); unfold writes; cbn;
    now rewrite omap_app.
Qed.

Lemma history_updateWorker env tenantId workerId isActive w :
  history (updateWorker env tenantId workerId isActive w)
  = history w ++ [CallUpdateWorker tenantId workerId isActive].
Proof. unfold updateWorker. now destruct (UpdateWorker env _ _ _ _). Qed.

Lemma monitors_updateWorker env tenantId workerId isActive w :
  monitors (updateWorker env tenantId workerId isActive w) = monitors w.
Proof. unfold updateWorker. now destruct (UpdateWorker env _ _ _ _). Qed.

Lemma alter_lookup_Some {A} (f : A -> A) (l : list A) i x :
  l !! i = Some x -> alter f i l !! i = Some (f x).
Proof. intros H. now rewrite list_lookup_alter_eq, H. Qed.

(** A tick whose probe fails: the counter goes up by one and, above 3, the
    record is written inactive. *)
Lemma tick_failed env m w mon :
  monitors w !! m = Some mon ->
  failed (probe env (monWW mon) w) ->
  exists w',
    tick env m w = (w', Returned ()) /\
    monitors w' = alter (setHealthCheckErrors (wrapInt (healthCheckErrors mon + 1))) m
                    (monitors w) /\
    writes w' = writes w ++
                (if 3 <? wrapInt (healthCheckErrors mon + 1)
                 then [(monTenantId mon, ID (monWW mon), false)] else []) /\
    probes w' = probes w ++ [monWW mon].
Proof.
  intros Hm Hf. unfold tick. rewrite Hm.
  unfold probe in Hf. destruct (healthcheck env (monWW mon) w) as [w1 r] eqn:Hh.
  cbn in Hf. destruct r as [e|h]; [|done].
  unfold healthcheck in Hh. injection Hh as <- _.
  destruct (3 <? wrapInt (healthCheckErrors mon + 1)); eexists; (split; [reflexivity|]).
  - rewrite monitors_updateWorker, writes_updateWorker. cbn.
    split; [reflexivity|]. unfold writes, probes.
    rewrite history_updateWorker. cbn. rewrite !omap_app. cbn.
    now rewrite !app_nil_r.
  - cbn. split; [reflexivity|]. unfold writes, probes. cbn. rewrite !omap_app. cbn.
    now rewrite !app_nil_r.
Qed.

(** A tick whose probe succeeds with both fingerprints as at the last
    tick. *)
Lemma tick_healthy env m w mon h :
  monitors w !! m = Some mon ->
  probe env (monWW mon) w = inr h ->
  hash (Workflows h) = wfsHashLast mon ->
  hash (Actions h) = actionsHashLast mon ->
  exists w',
    tick env m w = (w', Returned ()) /\
    monitors w' !! m
    = Some (setHealthCheckErrors 0
              (setHashLast (hash (Workflows h)) (hash (Actions h)) mon)) /\
    history w'
    = history w ++ [CallHealthcheck (monWW mon);
                    CallUpdateWorker (monTenantId mon) (ID (monWW mon)) true] /\
    transports w' = transports w /\
    length (monitors w') = length (monitors w).
Proof.
  intros Hm Hp Hwf Hac. unfold tick. rewrite Hm.
  unfold probe in Hp. destruct (healthcheck env (monWW mon) w) as [w1 r] eqn:Hh.
  cbn in Hp. subst r. unfold healthcheck in Hh. injection Hh as <- _.
  rewrite Hwf, Hac, !String.eqb_refl. cbn [negb orb].
  eexists. split; [reflexivity|].
  unfold updMonitor.
  cbn [setMonitors monitors history transports].
  rewrite monitors_updateWorker, history_updateWorker.
  assert (Htr : forall e t i b w0, transports (updateWorker e t i b w0) = transports w0)
    by (intros; unfold updateWorker; now destruct (UpdateWorker _ _ _ _ _)).
  rewrite Htr.
  destruct (0 <? healthCheckErrors mon); cbn.
  all: split; [by apply alter_lookup_Some, alter_lookup_Some|].
  all: rewrite <- app_assoc, !length_alter.
  all: done.
Qed.

(** C10: a successful probe with unchanged fingerprints is followed by a
    write of [isActive = true] to the worker's record, whatever the failure
    counter is, 0 included. *)
Theorem healthy_tick_writes_active env m w mon h :
  monitors w !! m = Some mon ->
  probe env (monWW mon) w = inr h ->
  hash (Workflows h) = wfsHashLast mon ->
  hash (Actions h) = actionsHashLast mon ->
  writes (tick env m w).1 = writes w ++ [(monTenantId mon, ID (monWW mon), true)].
Proof.
  intros Hm Hp Hwf Hac.
  destruct (tick_healthy env m w mon h Hm Hp Hwf Hac) as (w' & -> & _ & Hh & _).
  unfold writes. cbn [fst]. rewrite Hh, omap_app. reflexivity.
Qed.

Lemma healthy_tick_writes_active_witness :
  healthCheckErrors (spawnMonitor "t1" worker1 "token-t1" [workerCleanup 0]
                       {| Actions := ["a"; "b"]; Workflows := ["wf"] |}) = 0 /\
  writes (started1 steadyEnv) = [] /\
  writes (tick steadyEnv 0 (started1 steadyEnv)).1 = [] ++ [("t1", "w1", true)].
Proof.
  split; [reflexivity|]. split; [reflexivity|].
  apply (healthy_tick_writes_active steadyEnv 0 (started1 steadyEnv)
           (spawnMonitor "t1" worker1 "token-t1" [workerCleanup 0]
              {| Actions := ["a"; "b"]; Workflows := ["wf"] |})
           {| Actions := ["a"; "b"]; Workflows := ["wf"] |});
    vm_compute; reflexivity.
Defined.

(** ** Shutdown and scan *)

(** Both closures leave their loop at the first release that fails. *)
Lemma rangeReturn_first_error callf c cs w w' err :
  callf c w = (w', Returned (Some err)) ->
  rangeReturn callf (c :: cs) w
  = (w', Returned (Some (wrapError "could not cleanup webhook worker" err))).
Proof. intros H. cbn. now rewrite H. Qed.

(** C3 at its failing input: with two workers started and the first
    transport's release failing, the shutdown function returns that error
    without cancelling the second monitor or releasing the second
    transport. *)
Theorem shutdown_stops_at_first_failure :
  cleanups (scanned stubbornEnv) = [runCleanup 0; runCleanup 1] /\
  (call stubbornEnv (fuelOf (scanned stubbornEnv)) (startCleanup 0)
     (scanned stubbornEnv)).2
  = Returned (Some (wrapError "could not cleanup webhook worker"
                      (wrapError "could not cleanup webhook worker"
                         (errorString "stream closed")))) /\
  releasesOf 0 (call stubbornEnv (fuelOf (scanned stubbornEnv)) (startCleanup 0)
                  (scanned stubbornEnv)).1 = [CallRelease 0] /\
  releasesOf 1 (call stubbornEnv (fuelOf (scanned stubbornEnv)) (startCleanup 0)
                  (scanned stubbornEnv)).1 = [] /\
  ctxDone <$> monitors (call stubbornEnv (fuelOf (scanned stubbornEnv)) (startCleanup 0)
                          (scanned stubbornEnv)).1 = [true; false].
Proof. vm_compute. repeat split; reflexivity. Qed.

(** A worker whose startup fails is logged and the loop goes on. *)
Lemma checkWorkers_run_error env tenantId token ww wws w w' c err :
  run env tenantId ww token w = (w', (c, Some err)) ->
  checkWorkers env tenantId token (ww :: wws) w
  = checkWorkers env tenantId token wws
      (logf ("error running webhook worker: " +:+ Error err) w').
Proof. intros H. cbn [checkWorkers]. now rewrite H. Qed.

(** A tenant whose workers cannot be listed ends the scan. *)
Lemma checkTenants_listing_error env tenantId tenants w token err :
  GenerateTenantToken env (history w) tenantId = inr token ->
  ListWebhookWorkers env (history w ++ [CallGenerateTenantToken tenantId]) tenantId
  = inl err ->
  checkTenants env (tenantId :: tenants) w
  = (record (CallListWebhookWorkers tenantId) (record (CallGenerateTenantToken tenantId) w),
     Returned (Some (wrapError "could not get webhook workers" err))).
Proof.
  intros Ht Hl. cbn [checkTenants]. cbv zeta. rewrite Ht.
  cbn [record history]. now rewrite Hl.
Qed.

(** C4 at its failing input: with tenants t1 and t2, the listing of t1's
    workers failing, [check] returns the error after t1; t2 gets no token,
    its workers are not listed and its worker, which is configured and up, is
    neither probed nor started.  The scanner logs the error. *)
Theorem listing_failure_ends_scan :
  (check brokenListingEnv (Start New).1).2
  = Returned (Some (wrapError "could not get webhook workers"
                      (errorString "connection reset"))) /\
  history (check brokenListingEnv (Start New).1).1
  = [CallListTenants; CallGenerateTenantToken "t1"; CallListWebhookWorkers "t1"] /\
  monitors (check brokenListingEnv (Start New).1).1 = [] /\
  ListWebhookWorkers brokenListingEnv [] "t2" = inr [worker2] /\
  after (scannerStep brokenListingEnv 0 onTimer (Start New).1) (fun w =>
    logs w = ["error checking webhooks: could not get webhook workers: connection reset"]
    /\ probes w = [] /\ transports w = []).
Proof. vm_compute. repeat split; reflexivity. Qed.

(** ** What calls leave alone *)

#[local] Instance monEvolves_preorder : PreOrder monEvolves.
Proof.
  split.
  - intros a. unfold monEvolves. tauto.
  - intros a b c (? & ? & ? & ? & ? & Hab) (? & ? & ? & ? & ? & Hbc).
    unfold monEvolves.
    split; [congruence|]. split; [congruence|]. split; [congruence|].
    split; [tauto|]. split; [tauto|].
    intros Ha. destruct (Hab Ha) as [Hb Hc1]. destruct (Hbc Hb) as [Hc Hc2].
    split; congruence.
Qed.

#[local] Instance monitorsEvolve_preorder : PreOrder monitorsEvolve.
Proof.
  split.
  - intros w i a Ha. exists a. split; [done|reflexivity].
  - intros w1 w2 w3 H12 H23 i a Ha.
    destruct (H12 i a Ha) as (b & Hb & Hab). destruct (H23 i b Hb) as (c & Hc & Hbc).
    exists c. split; [done|]. now transitivity b.
Qed.

#[local] Instance still_preorder : PreOrder still.
Proof.
  split.
  - intros w. unfold still. tauto.
  - intros w1 w2 w3 (? & ? & ?) (? & ? & ?). unfold still. repeat split; congruence.
Qed.

(** A relation that holds across the elementary steps of a call holds
    across the call. *)
Section frame.
Context (R : relation World) `{!PreOrder R}.
Hypothesis R_record : forall e w, R w (record e w).
Hypothesis R_logf : forall line w, R w (logf line w).
Hypothesis R_cancel : forall m w, R w (updMonitor m cancelMonitor w).
Hypothesis R_scanners : forall f w, R w (setScanners f w).

Lemma rangeReturn_frame callf :
  (forall c w w' o, callf c w = (w', o) -> R w w') ->
  forall cs w w' o, rangeReturn callf cs w = (w', o) -> R w w'.
Proof.
  intros Hcall. induction cs as [|c cs IH]; intros w w' o; cbn [rangeReturn].
  - intros [= <- _]. reflexivity.
  - destruct (callf c w) as [w1 [[err|]|v|]] eqn:Hc; specialize (Hcall _ _ _ _ Hc).
    + intros [= <- _]. done.
    + intros H. transitivity w1; [done|]. by eapply IH.
    + intros [= <- _]. done.
    + intros [= <- _]. done.
Qed.

Lemma rangeLog_frame callf :
  (forall c w w' o, callf c w = (w', o) -> R w w') ->
  forall cs w w' o, rangeLog callf cs w = (w', o) -> R w w'.
Proof.
  intros Hcall. induction cs as [|c cs IH]; intros w w' o; cbn [rangeLog].
  - intros [= <- _]. reflexivity.
  - destruct (callf c w) as [w1 [[err|]|v|]] eqn:Hc; specialize (Hcall _ _ _ _ Hc).
    + intros H. transitivity w1; [done|]. by eapply IH.
    + intros H. transitivity w1; [done|]. by eapply IH.
    + intros [= <- _]. done.
    + intros [= <- _]. done.
Qed.

Lemma call_frame env fuel : forall f w w' o, call env fuel f w = (w', o) -> R w w'.
Proof.
  induction fuel as [|fuel IH]; intros f w w' o; destruct f as [|t|m|s]; cbn [call];
    try (intros [= <- _]; first [reflexivity|apply R_record]).
  - destruct (monitors w !! m) as [mon|]; [|intros [= <- _]; reflexivity].
    intros H. transitivity (updMonitor m cancelMonitor w); [apply R_cancel|].
    by eapply rangeReturn_frame.
  - destruct (scanners w !! s) as [sc|]; [|intros [= <- _]; reflexivity].
    intros H. transitivity (setScanners (alter cancelScanner s) w); [apply R_scanners|].
    by eapply rangeReturn_frame.
Qed.

Lemma updateWorker_frame env tenantId workerId isActive w :
  R w (updateWorker env tenantId workerId isActive w).
Proof.
  unfold updateWorker. destruct (UpdateWorker env _ _ _ _); apply R_record.
Qed.
End frame.

Lemma still_record e w : still w (record e w).
Proof. by unfold still. Qed.

Lemma still_logf line w : still w (logf line w).
Proof. by unfold still. Qed.

Lemma still_updMonitor m f w : still w (updMonitor m f w).
Proof. unfold still. cbn. by rewrite length_alter. Qed.

Lemma still_setScanners f w : still w (setScanners f w).
Proof. by unfold still. Qed.

Lemma still_setPanicked v w : still w (setPanicked v w).
Proof. by unfold still. Qed.

Lemma still_call env fuel f w w' o : call env fuel f w = (w', o) -> still w w'.
Proof.
  apply (call_frame still); auto using still_record, still_updMonitor, still_setScanners.
Qed.

Lemma still_rangeLog env fuel cs w w' o :
  rangeLog (call env fuel) cs w = (w', o) -> still w w'.
Proof.
  apply (rangeLog_frame still).
  intros c w0 w0' o0. apply still_call.
Qed.

Lemma monitorsEvolve_same w w' : monitors w' = monitors w -> monitorsEvolve w w'.
Proof. intros H i a Ha. exists a. rewrite H. split; [done|reflexivity]. Qed.

(** An update of monitor [m] that is harmless to what [m] was at first. *)
Lemma monitorsEvolve_upd w w' m g :
  monitorsEvolve w w' ->
  (forall a b, monitors w !! m = Some a -> monEvolves a b -> monEvolves a (g b)) ->
  monitorsEvolve w (updMonitor m g w').
Proof.
  intros H Hg i a Ha. destruct (H i a Ha) as (b & Hb & Hab).
  unfold updMonitor. cbn [setMonitors monitors].
  destruct (decide (m = i)) as [->|Hne].
  - exists (g b). split; [by apply alter_lookup_Some|]. by apply Hg.
  - exists b. split; [by rewrite list_lookup_alter_ne|done].
Qed.

Lemma monEvolves_cancel a b : monEvolves a b -> monEvolves a (cancelMonitor b).
Proof. intros (? & ? & ? & ? & ? & ?). unfold monEvolves. cbn. tauto. Qed.

Lemma monEvolves_return a b : monEvolves a b -> monEvolves a (returnMonitor b).
Proof.
  intros (? & ? & ? & ? & ? & ?). unfold monEvolves. cbn.
  repeat (split; [tauto || congruence|]). tauto.
Qed.

Lemma monEvolves_receive a b : monEvolves a b -> monEvolves a (receiveTimer b).
Proof.
  intros (? & ? & ? & ? & ? & ?). unfold monEvolves. cbn.
  repeat (split; [tauto || congruence|]). tauto.
Qed.

Lemma monEvolves_errors n a b : monEvolves a b -> monEvolves a (setHealthCheckErrors n b).
Proof. intros (? & ? & ? & ? & ? & ?). unfold monEvolves. cbn. tauto. Qed.

Lemma monEvolves_hashLast x y a b : monEvolves a b -> monEvolves a (setHashLast x y b).
Proof. intros (? & ? & ? & ? & ? & ?). unfold monEvolves. cbn. tauto. Qed.

Lemma monEvolves_cleanups cs a b :
  returned a = false -> monEvolves a b -> monEvolves a (setMonCleanups cs b).
Proof.
  intros Ha (? & ? & ? & ? & ? & ?). unfold monEvolves. cbn.
  repeat (split; [tauto || congruence|]). congruence.
Qed.

Lemma monitorsEvolve_cancel m w : monitorsEvolve w (updMonitor m cancelMonitor w).
Proof.
  apply monitorsEvolve_upd; [reflexivity|]. intros a b _. apply monEvolves_cancel.
Qed.

Lemma monitorsEvolve_call env fuel f w w' o :
  call env fuel f w = (w', o) -> monitorsEvolve w w'.
Proof.
  apply (call_frame monitorsEvolve);
    auto using monitorsEvolve_cancel; intros; by apply monitorsEvolve_same.
Qed.

Lemma monitorsEvolve_rangeLog env fuel cs w w' o :
  rangeLog (call env fuel) cs w = (w', o) -> monitorsEvolve w w'.
Proof.
  apply (rangeLog_frame monitorsEvolve).
  intros c w0 w0' o0. apply monitorsEvolve_call.
Qed.

Lemma monitorsEvolve_run env tenantId ww token w w' r :
  run env tenantId ww token w = (w', r) -> monitorsEvolve w w'.
Proof.
  destruct r as [c err]. intros H.
  apply run_inv in H as (_ & _ & _ & [(_ & _ & Hm & _)|(h & _ & _ & _ & _ & _ & Hm)]).
  - by apply monitorsEvolve_same.
  - intros i a Ha. exists a. rewrite Hm. split; [|reflexivity].
    by apply lookup_app_l_Some.
Qed.

Lemma monitors_healthcheck env ww w : monitors (healthcheck env ww w).1 = monitors w.
Proof. reflexivity. Qed.

Lemma monitorsEvolve_logf w w' line : monitorsEvolve w w' -> monitorsEvolve w (logf line w').
Proof. intros H. etransitivity; [exact H|]. by apply monitorsEvolve_same. Qed.

Lemma monitorsEvolve_record w w' e : monitorsEvolve w w' -> monitorsEvolve w (record e w').
Proof. intros H. etransitivity; [exact H|]. by apply monitorsEvolve_same. Qed.

Lemma monitorsEvolve_updateWorker env t i b w w' :
  monitorsEvolve w w' -> monitorsEvolve w (updateWorker env t i b w').
Proof.
  intros H. etransitivity; [exact H|].
  apply monitorsEvolve_same, monitors_updateWorker.
Qed.

Lemma still_step_logf w w' line : still w w' -> still w (logf line w').
Proof. intros H. etransitivity; [exact H|]. apply still_logf. Qed.

Lemma still_step_record w w' e : still w w' -> still w (record e w').
Proof. intros H. etransitivity; [exact H|]. apply still_record. Qed.

Lemma still_step_upd w w' m f : still w w' -> still w (updMonitor m f w').
Proof. intros H. etransitivity; [exact H|]. apply still_updMonitor. Qed.

Lemma still_step_updateWorker env t i b w w' :
  still w w' -> still w (updateWorker env t i b w').
Proof.
  intros H. etransitivity; [exact H|].
  apply (updateWorker_frame still); auto using still_record, still_logf.
Qed.

Ltac peel_still :=
  repeat first [ apply still_step_logf | apply still_step_record
               | apply still_step_upd | apply still_step_updateWorker ].

Ltac peel_evolve :=
  repeat first [ apply monitorsEvolve_logf | apply monitorsEvolve_record
               | apply monitorsEvolve_updateWorker
               | apply monitorsEvolve_upd;
                 [|intros ? ? ? ?;
                   first [ by apply monEvolves_errors | by apply monEvolves_hashLast
                         | by apply monEvolves_return | by apply monEvolves_receive
                         | by apply monEvolves_cancel
                         | apply monEvolves_cleanups; [congruence|done] ]] ].

(** A tick of a monitor whose identity is registered registers nothing,
    starts no transport and spawns no monitor, whichever path it takes. *)
Lemma tick_still env m w mon :
  monitors w !! m = Some mon ->
  registered (ID (monWW mon)) w ->
  still w (tick env m w).1.
Proof.
  intros Hm Hreg. unfold tick. rewrite Hm. unfold healthcheck.
  destruct (match httpGet env (history w) (monWW mon) with
            | BadRequest _ | _ => _ end) as [e|h].
  - destruct (3 <? _); cbn [fst]; peel_still; reflexivity.
  - destruct (negb _ || negb _).
    + destruct (rangeLog _ _ _) as [w4 [[]|v|]] eqn:Hrange;
        apply still_rangeLog in Hrange.
      * destruct (run_registered env (monTenantId mon) (monWW mon) (monToken mon) w4)
          as [err ->].
        { destruct Hrange as (Hr & _). unfold registered. by rewrite Hr. }
        cbn [fst]. peel_still. destruct err; peel_still; exact Hrange.
      * exact Hrange.
      * exact Hrange.
    + cbn [fst]. peel_still. destruct (0 <? _); peel_still; reflexivity.
Qed.

(** A tick of a live monitor is harmless to every monitor there is. *)
Lemma tick_monitorsEvolve env m w mon :
  monitors w !! m = Some mon ->
  returned mon = false ->
  monitorsEvolve w (tick env m w).1.
Proof.
  intros Hm Hlive. unfold tick. rewrite Hm. unfold healthcheck.
  destruct (match httpGet env (history w) (monWW mon) with
            | BadRequest _ | _ => _ end) as [e|h].
  - destruct (3 <? _); cbn [fst]; peel_evolve; reflexivity.
  - destruct (negb _ || negb _).
    + destruct (rangeLog _ _ _) as [w4 [[]|v|]] eqn:Hrange;
        apply monitorsEvolve_rangeLog in Hrange; [|exact Hrange..].
      destruct (run env _ _ _ w4) as [w5 [c err]] eqn:Hrun.
      apply monitorsEvolve_run in Hrun.
      cbn [fst]. peel_evolve. destruct err; peel_evolve.
      all: etransitivity; [exact Hrange|exact Hrun].
    + cbn [fst]. peel_evolve. destruct (0 <? _); peel_evolve; reflexivity.
Qed.

(** ** The registry covers what was started, in every reachable world *)

Lemma registry_covers_still w w' :
  still w w' -> monitorsEvolve w w' -> registry_covers w -> registry_covers w'.
Proof.
  intros (Hr & Ht & Hl) Hev [Hts Hms]. unfold registry_covers, registered.
  rewrite Hr, Ht. split; [exact Hts|].
  intros b Hb. apply list_elem_of_lookup in Hb as [i Hi].
  destruct (lookup_lt_is_Some_2 (monitors w) i) as [a Ha].
  { rewrite <- Hl. by eapply lookup_lt_Some. }
  destruct (Hev i a Ha) as (b' & Hb' & (_ & Hww & _)).
  assert (b' = b) as -> by congruence. rewrite Hww.
  apply Hms, list_elem_of_lookup. eauto.
Qed.

Lemma registered_insert id id' w :
  registered id w -> registered id (setRegistered <[id' := true]> w).
Proof.
  unfold registered. cbn. intros [b Hb].
  destruct (decide (id' = id)) as [->|Hne].
  - rewrite lookup_insert_eq. eauto.
  - rewrite lookup_insert_ne by done. eauto.
Qed.

Lemma registry_covers_run env tenantId ww token w w' r :
  run env tenantId ww token w = (w', r) -> registry_covers w -> registry_covers w'.
Proof.
  destruct r as [c err]. intros H [Hts Hms].
  assert (Hins : forall id, registered id w ->
            is_Some (<[ID ww := true]> (registeredWorkerIds w) !! id)).
  { intros id Hid. apply (registered_insert id (ID ww) w Hid). }
  apply run_inv in H as (_ & _ & _ & [(_ & Ht & Hm & [Hr|(_ & _ & Hr)])
                                     |(h & _ & _ & _ & Hr & Ht & Hm)]);
    unfold registry_covers, registered; rewrite Hr, Ht, Hm.
  - done.
  - split; intros x Hx; apply Hins; auto.
  - split; intros x Hx; apply elem_of_app in Hx as [Hx|Hx].
    + apply Hins; auto.
    + apply list_elem_of_singleton in Hx as ->. cbn. rewrite lookup_insert_eq. eauto.
    + apply Hins; auto.
    + apply list_elem_of_singleton in Hx as ->. cbn. rewrite lookup_insert_eq. eauto.
Qed.

Lemma registry_covers_same w w' :
  registeredWorkerIds w' = registeredWorkerIds w ->
  transports w' = transports w ->
  monitors w' = monitors w ->
  registry_covers w -> registry_covers w'.
Proof. unfold registry_covers, registered. by intros -> -> ->. Qed.

Lemma checkWorkers_inv env tenantId token wws : forall w,
  (registry_covers w -> registry_covers (checkWorkers env tenantId token wws w)) /\
  monitorsEvolve w (checkWorkers env tenantId token wws w).
Proof.
  induction wws as [|ww wws IH]; intros w; cbn [checkWorkers]; [split; [done|reflexivity]|].
  destruct (run env tenantId ww token w) as [w1 [c err]] eqn:Hrun.
  pose proof (registry_covers_run _ _ _ _ _ _ _ Hrun) as Hc.
  pose proof (monitorsEvolve_run _ _ _ _ _ _ _ Hrun) as He.
  destruct err as [err|].
  - destruct (IH (logf ("error running webhook worker: " +:+ Error err) w1)) as [IHc IHe].
    split; [intros H; apply IHc, (registry_covers_same w1); auto|].
    etransitivity; [exact He|]. exact IHe.
  - destruct c; first
      [ destruct (IH w1) as [IHc IHe];
        split; [by auto|by etransitivity]
      | match goal with
        | |- context [setCleanups ?f w1] =>
            destruct (IH (setCleanups f w1)) as [IHc IHe]
        end;
        split; [intros H; apply IHc, (registry_covers_same w1); auto|];
        etransitivity; [exact He|exact IHe] ].
Qed.

Lemma checkTenants_inv env tenants : forall w,
  (registry_covers w -> registry_covers (checkTenants env tenants w).1) /\
  monitorsEvolve w (checkTenants env tenants w).1.
Proof.
  induction tenants as [|tenantId tenants IH]; intros w; cbn [checkTenants];
    [split; [done|reflexivity]|].
  cbv zeta. destruct (GenerateTenantToken env _ _) as [err|token];
    [split; [apply registry_covers_same|apply monitorsEvolve_same]; done|].
  destruct (ListWebhookWorkers env _ _) as [err|wws];
    [split; [apply registry_covers_same|apply monitorsEvolve_same]; done|].
  match goal with
  | |- context [checkWorkers env tenantId token wws ?w0] =>
      destruct (checkWorkers_inv env tenantId token wws w0) as [Hc He];
      destruct (IH (checkWorkers env tenantId token wws w0)) as [IHc IHe]
  end.
  split.
  - intros H. apply IHc, Hc. revert H. by apply registry_covers_same.
  - etransitivity; [|exact IHe]. etransitivity; [|exact He]. by apply monitorsEvolve_same.
Qed.

Lemma check_inv env w :
  (registry_covers w -> registry_covers (check env w).1) /\
  monitorsEvolve w (check env w).1.
Proof.
  unfold check. destruct (ListTenants env _) as [err|tenants];
    [split; [apply registry_covers_same|apply monitorsEvolve_same]; done|].
  destruct (checkTenants_inv env tenants (record CallListTenants w)) as [Hc He].
  split.
  - intros H. apply Hc. revert H. by apply registry_covers_same.
  - etransitivity; [|exact He]. by apply monitorsEvolve_same.
Qed.

(** No turn of a monitor registers, starts or spawns anything, the restart
    included: the identity of a monitor is registered, so the [run] of the
    restart stops at the guard. *)
Lemma monitorStep_inv env m k w w' :
  monitorStep env m k w = Some w' ->
  monitorsEvolve w w' /\ (registry_covers w -> still w w').
Proof.
  unfold monitorStep. destruct (monitors w !! m) as [mon|] eqn:Hm; [|done].
  destruct (returned mon) eqn:Hlive; [done|]. destruct k.
  - destruct (ctxDone mon); [|done]. intros [= <-]. split.
    + apply monitorsEvolve_upd; [reflexivity|]. intros a b _. apply monEvolves_return.
    + intros _. apply still_updMonitor.
  - destruct (timerC mon); [|done].
    pose proof (alter_lookup_Some receiveTimer _ _ _ Hm) as Hm0.
    assert (He0 : monitorsEvolve w (updMonitor m receiveTimer w)).
    { apply monitorsEvolve_upd; [reflexivity|]. intros a b _. apply monEvolves_receive. }
    pose proof (tick_monitorsEvolve env m (updMonitor m receiveTimer w) _ Hm0 Hlive) as He.
    assert (Hs : registry_covers w -> still w (tick env m (updMonitor m receiveTimer w)).1).
    { intros Hc. etransitivity; [apply (still_updMonitor m receiveTimer)|].
      eapply tick_still; [exact Hm0|]. cbn.
      apply (proj2 Hc mon), list_elem_of_lookup. eauto. }
    destruct (tick env m _) as [w1 [[]|v|]]; [| |done]; intros [= <-]; cbn [fst] in *.
    + split; [by etransitivity|done].
    + split.
      * etransitivity; [exact He0|]. etransitivity; [exact He|]. by apply monitorsEvolve_same.
      * intros Hc. etransitivity; [by apply Hs|]. apply still_setPanicked.
Qed.

Lemma exec_inv env o w w' :
  exec env o w = Some w' ->
  monitorsEvolve w w' /\ (registry_covers w -> registry_covers w').
Proof.
  unfold exec. destruct (panicked w); [done|]. destruct o as [|s|s k|m k].
  - intros [= <-]. split; [by apply monitorsEvolve_same|by apply registry_covers_same].
  - destruct (call env _ _ w) as [w1 [r|v|]] eqn:Hcall; [| |done];
      pose proof (monitorsEvolve_call _ _ _ _ _ _ Hcall) as He;
      pose proof (still_call _ _ _ _ _ _ Hcall) as Hs;
      intros [= <-].
    + split; [done|]. by apply registry_covers_still.
    + split; [etransitivity; [exact He|by apply monitorsEvolve_same]|].
      intros Hc. apply (registry_covers_same w1); try done.
      by apply (registry_covers_still w).
  - unfold scannerStep. destruct (scanners w !! s) as [sc|]; [|done].
    destruct (scanReturned sc); [done|]. destruct k.
    + destruct (scanCtxDone sc); [|done]. intros [= <-].
      split; [by apply monitorsEvolve_same|by apply registry_covers_same].
    + destruct (check_inv env w) as [Hc He].
      destruct (check env w) as [w1 [[err|]|v|]]; [| | |done]; intros [= <-];
        cbn [fst] in *.
      * split; [etransitivity; [exact He|by apply monitorsEvolve_same]|].
        intros H. by apply (registry_covers_same w1); auto.
      * done.
      * split; [etransitivity; [exact He|by apply monitorsEvolve_same]|].
        intros H. by apply (registry_covers_same w1); auto.
  - intros H. apply monitorStep_inv in H as [He Hs]. split; [done|].
    intros Hc. by apply (registry_covers_still w); auto.
Qed.

Lemma reachable_registry_covers env w : reachable env w -> registry_covers w.
Proof.
  induction 1 as [|o w w' _ IH Hex]; [apply registry_covers_New|].
  by apply (exec_inv env o w w').
Qed.

Lemma execs_monitorsEvolve env ops : forall w w',
  execs env ops w = Some w' -> monitorsEvolve w w'.
Proof.
  induction ops as [|o ops IH]; intros w w'; cbn [execs].
  - intros [= <-]. reflexivity.
  - destruct (exec env o w) as [w1|] eqn:Hex; [|done]. intros H.
    etransitivity; [by apply (exec_inv env o w w1)|by apply IH].
Qed.

(** In no reachable world does the restart of a monitor start a transport
    or spawn a monitor. *)
Lemma restart_starts_nothing env m w w' :
  reachable env w ->
  monitorStep env m onTimer w = Some w' ->
  transports w' = transports w /\ length (monitors w') = length (monitors w).
Proof.
  intros Hr Hstep. apply monitorStep_inv in Hstep as [_ Hs].
  destruct (Hs (reachable_registry_covers env w Hr)) as (_ & ? & ?). done.
Qed.

(** The timer of a monitor delivers once: after its first tick, whatever
    else happens, its [timer.C] case is never ready again. *)
Lemma timer_fires_once env m w w1 ops w2 :
  monitorStep env m onTimer w = Some w1 ->
  execs env ops w1 = Some w2 ->
  monitorStep env m onTimer w2 = None.
Proof.
  intros Hstep Hops.
  assert (Hspent : exists b, monitors w1 !! m = Some b /\ timerC b = false).
  { revert Hstep. unfold monitorStep.
    destruct (monitors w !! m) as [mon|] eqn:Hm; [|done].
    destruct (returned mon) eqn:Hlive; [done|]. destruct (timerC mon); [|done].
    pose proof (alter_lookup_Some receiveTimer _ _ _ Hm) as Hm0.
    pose proof (tick_monitorsEvolve env m (updMonitor m receiveTimer w) _ Hm0 Hlive) as He.
    destruct (He m _ Hm0) as (b & Hb & (_ & _ & _ & Ht & _)).
    destruct (tick env m _) as [w' [[]|v|]]; [| |done]; intros [= <-];
      exists b; (split; [exact Hb|]);
      (destruct (timerC b); [by specialize (Ht eq_refl)|done]). }
  destruct Hspent as (b & Hb & Ht).
  destruct (execs_monitorsEvolve env ops w1 w2 Hops m b Hb) as (c & Hc & (_ & _ & _ & Htc & _)).
  unfold monitorStep. rewrite Hc. destruct (returned c); [done|].
  destruct (timerC c); [|done]. specialize (Htc eq_refl). congruence.
Qed.

(** ** The restart *)

(** The restart of a monitor made by [run], its identity registered as
    [run] left it: the old release is called, the [run] of the restart
    returns nil at the guard, and the goroutine returns with [nilFunc] as its
    only cleanup. *)
Lemma tick_changed env m w mon h t :
  monitors w !! m = Some mon ->
  monCleanups mon = [workerCleanup t] ->
  registered (ID (monWW mon)) w ->
  probe env (monWW mon) w = inr h ->
  hash (Workflows h) <> wfsHashLast mon \/ hash (Actions h) <> actionsHashLast mon ->
  exists w',
    tick env m w = (w', Returned ()) /\
    monitors w' = alter returnMonitor m (alter (setMonCleanups [nilFunc]) m (monitors w)) /\
    transports w' = transports w /\
    registeredWorkerIds w' = registeredWorkerIds w /\
    history w' = history w ++ [CallHealthcheck (monWW mon); CallRelease t;
                               CallHealthcheck (monWW mon)].
Proof.
  intros Hm Hcs Hreg Hp Hch. unfold tick. rewrite Hm.
  unfold probe in Hp. destruct (healthcheck env (monWW mon) w) as [w1 r] eqn:Hh.
  cbn in Hp. subst r. unfold healthcheck in Hh. injection Hh as <- _.
  assert (negb (hash (Workflows h) =? wfsHashLast mon)%string
          || negb (hash (Actions h) =? actionsHashLast mon)%string = true) as ->.
  { apply orb_true_iff. rewrite !negb_true_iff, !String.eqb_neq. exact Hch. }
  rewrite Hcs. cbn [rangeLog fuelOf call].
  match goal with
  | |- context [releaseWorker env ?hist t] => destruct (releaseWorker env hist t) as [err|]
  end.
  all: match goal with
       | |- context [run ?e ?a ?b ?c ?w0] =>
           destruct (run_registered e a b c w0) as [err' ->]; [exact Hreg|]
       end.
  all: eexists; split; [reflexivity|].
  all: destruct err'; cbn; repeat split; try reflexivity.
  all: by rewrite <- !app_assoc.
Qed.

Lemma call_nil_cleanup env fuel m w mon :
  monitors w !! m = Some mon ->
  monCleanups mon = [nilFunc] ->
  (call env (S fuel) (runCleanup m) w).2 = Panicked nilFuncCall.
Proof. intros Hm Hcs. cbn [call]. rewrite Hm, Hcs. by destruct fuel. Qed.

(** C9: when a monitor detects a change and the [run] of the restart stops
    at the guard because the identity is registered, the monitor's
    [cleanups] become the one-element list holding the nil function, and
    from then on every call of the closure the original [run] returned
    panics on the nil function instead of returning. *)
Theorem restart_leaves_nil_cleanup env m w mon h t :
  monitors w !! m = Some mon ->
  monCleanups mon = [workerCleanup t] ->
  registered (ID (monWW mon)) w ->
  probe env (monWW mon) w = inr h ->
  hash (Workflows h) <> wfsHashLast mon \/ hash (Actions h) <> actionsHashLast mon ->
  (tick env m w).2 = Returned () /\
  (exists b, monitors (tick env m w).1 !! m = Some b /\ monCleanups b = [nilFunc]) /\
  forall ops w2 fuel,
    execs env ops (tick env m w).1 = Some w2 ->
    (call env (S fuel) (runCleanup m) w2).2 = Panicked nilFuncCall.
Proof.
  intros Hm Hcs Hreg Hp Hch.
  destruct (tick_changed env m w mon h t Hm Hcs Hreg Hp Hch) as (w' & -> & Hms & _).
  cbn [fst snd].
  assert (Hb : monitors w' !! m = Some (returnMonitor (setMonCleanups [nilFunc] mon))).
  { rewrite Hms. by apply alter_lookup_Some, alter_lookup_Some. }
  split; [reflexivity|]. split; [eexists; split; [exact Hb|reflexivity]|].
  intros ops w2 fuel Hops.
  destruct (execs_monitorsEvolve env ops w' w2 Hops m _ Hb)
    as (c & Hc & (_ & _ & _ & _ & _ & Hret)).
  destruct (Hret eq_refl) as [_ Hcc].
  by apply (call_nil_cleanup env fuel m w2 c).
Qed.

Lemma restart_leaves_nil_cleanup_witness :
  (tick changedEnv 0 (started1 changedEnv)).2 = Returned () /\
  (exists b, monitors (tick changedEnv 0 (started1 changedEnv)).1 !! 0%nat = Some b /\
             monCleanups b = [nilFunc]) /\
  forall ops w2 fuel,
    execs changedEnv ops (tick changedEnv 0 (started1 changedEnv)).1 = Some w2 ->
    (call changedEnv (S fuel) (runCleanup 0) w2).2 = Panicked nilFuncCall.
Proof.
  apply (restart_leaves_nil_cleanup changedEnv 0 (started1 changedEnv)
           (spawnMonitor "t1" worker1 "token-t1" [workerCleanup 0]
              {| Actions := ["a"; "b"]; Workflows := ["wf"] |})
           {| Actions := ["a"; "b"; "c"]; Workflows := ["wf"] |} 0%nat).
  - vm_compute. reflexivity.
  - reflexivity.
  - vm_compute. eexists. reflexivity.
  - vm_compute. reflexivity.
  - right. vm_compute. discriminate.
Defined.

(** C1 at its failing input: a worker started with actions a, b answers its
    next probe with a, b, c.  The old transport is released once; the [run]
    of the restart probes and stops at the guard, so no transport is started
    and no monitor spawned, and the one monitor has returned, its baseline
    still that of a, b. *)
Theorem change_restart_starts_no_replacement :
  after (monitorStep changedEnv 0 onTimer (started1 changedEnv)) (fun w' =>
    releasesOf 0 w' = [CallRelease 0] /\
    optActions <$> transports w' = [["a"; "b"]] /\
    optActions <$> starts w' = [["a"; "b"]] /\
    returned <$> monitors w' = [true] /\
    actionsHashLast <$> monitors w' = ["a,b"] /\
    hash ["a"; "b"; "c"] = "a,b,c" /\
    registeredWorkerIds w' !! "w1" = Some true).
Proof. vm_compute. repeat split; reflexivity. Qed.

(** C5 at its failing input: a worker that is up and unchanged.  After the
    probe of the startup the monitor probes at its first tick; after that
    neither case of its [select] is ready, though it has not returned and was
    not cancelled: it makes no further probe. *)
Theorem monitor_probes_once :
  after (monitorStep steadyEnv 0 onTimer (started1 steadyEnv)) (fun w1 =>
    probes w1 = [worker1; worker1] /\
    returned <$> monitors w1 = [false] /\
    ctxDone <$> monitors w1 = [false] /\
    monitorStep steadyEnv 0 onTimer w1 = None /\
    monitorStep steadyEnv 0 onDone w1 = None).
Proof. vm_compute. repeat split; reflexivity. Qed.

(** A tick that fails, or succeeds with the fingerprints unchanged, leaves the
    goroutine in its loop, whatever the failure counter: being inactive does
    not end a monitor. *)
Lemma tick_keeps_running env m w mon :
  monitors w !! m = Some mon ->
  returned mon = false ->
  failed (probe env (monWW mon) w) \/
  (exists h, probe env (monWW mon) w = inr h /\
             hash (Workflows h) = wfsHashLast mon /\
             hash (Actions h) = actionsHashLast mon) ->
  (tick env m w).2 = Returned () /\
  exists b, monitors (tick env m w).1 !! m = Some b /\ returned b = false.
Proof.
  intros Hm Hlive [Hf|(h & Hp & Hwf & Hac)].
  - destruct (tick_failed env m w mon Hm Hf) as (w' & -> & Hms & _). cbn [fst snd].
    split; [reflexivity|]. eexists. rewrite Hms.
    split; [by apply alter_lookup_Some|exact Hlive].
  - destruct (tick_healthy env m w mon h Hm Hp Hwf Hac) as (w' & -> & Hm' & _).
    cbn [fst snd]. split; [reflexivity|]. eexists. split; [exact Hm'|exact Hlive].
Qed.

(** ** Calls finish *)

#[local] Instance sameClosures_preorder : PreOrder sameClosures.
Proof.
  split.
  - intros w. by unfold sameClosures.
  - intros w1 w2 w3 [? ?] [? ?]. unfold sameClosures. split; congruence.
Qed.

Lemma sameClosures_upd m f w :
  (forall a, monCleanups (f a) = monCleanups a) -> sameClosures w (updMonitor m f w).
Proof.
  intros Hf. split; [reflexivity|]. cbn.
  rewrite (list_fmap_alter monCleanups f id).
  - by apply list_alter_id.
  - apply Forall_forall. intros a _. apply Hf.
Qed.

Lemma sameClosures_call env fuel f w w' o :
  call env fuel f w = (w', o) -> sameClosures w w'.
Proof.
  apply (call_frame sameClosures); try (intros; by unfold sameClosures).
  intros m w0. by apply sameClosures_upd.
Qed.

Lemma sameClosures_rangeLog env fuel cs w w' o :
  rangeLog (call env fuel) cs w = (w', o) -> sameClosures w w'.
Proof.
  apply (rangeLog_frame sameClosures).
  intros c w0 w0' o0. apply sameClosures_call.
Qed.

Lemma sameClosures_length w w' :
  sameClosures w w' -> length (monitors w') = length (monitors w).
Proof. intros [_ H]. apply (f_equal length) in H. by rewrite !length_fmap in H. Qed.

Lemma closures_wf_same w w' : sameClosures w w' -> closures_wf w -> closures_wf w'.
Proof.
  intros Hs [Hm Hc]. pose proof (sameClosures_length w w' Hs) as Hl.
  destruct Hs as [Hsc Hsm]. unfold closures_wf. rewrite Hsc, Hl. split; [|exact Hc].
  apply (Forall_fmap monCleanups (Forall flat)). rewrite Hsm.
  by apply (Forall_fmap monCleanups (Forall flat)).
Qed.

Lemma call_flat_finishes env fuel c w :
  flat c -> (call env fuel c w).2 <> Unfinished.
Proof. destruct c, fuel; cbn; done. Qed.

Lemma rangeReturn_flat_finishes env fuel cs : forall w,
  Forall flat cs -> (rangeReturn (call env fuel) cs w).2 <> Unfinished.
Proof.
  induction cs as [|c cs IH]; intros w Hcs; cbn [rangeReturn]; [done|].
  apply Forall_cons in Hcs as [Hc Hcs].
  pose proof (call_flat_finishes env fuel c w Hc) as Hfin.
  destruct (call env fuel c w) as [w1 [[err|]|v|]]; cbn in *; try done.
  by apply IH.
Qed.

Lemma rangeLog_flat_finishes env fuel cs : forall w,
  Forall flat cs -> (rangeLog (call env fuel) cs w).2 <> Unfinished.
Proof.
  induction cs as [|c cs IH]; intros w Hcs; cbn [rangeLog]; [done|].
  apply Forall_cons in Hcs as [Hc Hcs].
  pose proof (call_flat_finishes env fuel c w Hc) as Hfin.
  destruct (call env fuel c w) as [w1 [[err|]|v|]]; cbn in *; try done; by apply IH.
Qed.

Lemma runCleanup_finishes env fuel m w :
  closures_wf w -> (m < length (monitors w))%nat ->
  (call env (S fuel) (runCleanup m) w).2 <> Unfinished.
Proof.
  intros [Hm _] Hlt. cbn [call].
  destruct (lookup_lt_is_Some_2 (monitors w) m Hlt) as [mon Hmon]. rewrite Hmon.
  apply rangeReturn_flat_finishes. by apply (Forall_lookup_1 _ _ _ _ Hm Hmon).
Qed.

Lemma rangeReturn_closures_finishes env fuel cs : forall w,
  closures_wf w ->
  Forall (fun c => exists m, c = runCleanup m /\ (m < length (monitors w))%nat) cs ->
  (rangeReturn (call env (S fuel)) cs w).2 <> Unfinished.
Proof.
  induction cs as [|c cs IH]; intros w Hwf Hcs; cbn [rangeReturn]; [done|].
  apply Forall_cons in Hcs as [(m & -> & Hlt) Hcs].
  pose proof (runCleanup_finishes env fuel m w Hwf Hlt) as Hfin.
  destruct (call env (S fuel) (runCleanup m) w) as [w1 [[err|]|v|]] eqn:Hcall;
    cbn [snd] in *; try done.
  apply sameClosures_call in Hcall.
  apply IH; [by apply (closures_wf_same w)|].
  by rewrite (sameClosures_length w w1 Hcall).
Qed.

(** The shutdown function finishes: it returns or panics. *)
Lemma shutdown_finishes env fuel s w :
  closures_wf w -> is_Some (scanners w !! s) ->
  (call env (S (S fuel)) (startCleanup s) w).2 <> Unfinished.
Proof.
  intros Hwf [sc Hsc]. cbn [call]. rewrite Hsc.
  apply rangeReturn_closures_finishes; [|apply Hwf].
  revert Hwf. by apply closures_wf_same.
Qed.

(** The body of a tick finishes. *)
Lemma tick_finishes env m w :
  closures_wf w -> is_Some (monitors w !! m) -> (tick env m w).2 <> Unfinished.
Proof.
  intros [Hwf _] [mon Hm]. unfold tick. rewrite Hm. unfold healthcheck.
  destruct (match httpGet env (history w) (monWW mon) with
            | BadRequest _ | _ => _ end) as [e|h].
  - by destruct (3 <? _).
  - destruct (negb _ || negb _); [|done].
    match goal with
    | |- context [rangeLog (call env ?fuel) ?cs ?w0] =>
        pose proof (rangeLog_flat_finishes env fuel cs w0
                      (Forall_lookup_1 _ _ _ _ Hwf Hm)) as Hfin;
        destruct (rangeLog (call env fuel) cs w0) as [w4 [[]|v|]]
    end; [|done..].
    by destruct (run env _ _ _ w4) as [w5 [c err]].
Qed.

Lemma check_finishes env w : (check env w).2 <> Unfinished.
Proof.
  unfold check. destruct (ListTenants env _) as [err|tenants]; [done|].
  generalize (record CallListTenants w). clear w.
  induction tenants as [|tenantId tenants IH]; intros w; cbn [checkTenants]; [done|].
  cbv zeta. destruct (GenerateTenantToken env _ _); [done|].
  destruct (ListWebhookWorkers env _ _); [done|]. apply IH.
Qed.

Lemma closures_wf_run env tenantId ww token w w' c err :
  run env tenantId ww token w = (w', (c, err)) ->
  closures_wf w ->
  closures_wf w' /\
  (c = nilFunc \/ exists m, c = runCleanup m /\ (m < length (monitors w'))%nat).
Proof.
  intros H [Hm Hc].
  apply run_inv in H as (Hcs & _ & _ & [(-> & _ & Hms & _)
                                       |(h & _ & -> & _ & _ & _ & Hms)]);
    unfold closures_wf; rewrite Hcs, Hms.
  - auto.
  - rewrite length_app. cbn [length]. split; [split|].
    + apply Forall_app. split; [exact Hm|]. repeat constructor.
    + eapply Forall_impl; [exact Hc|]. intros c (m & -> & Hlt). exists m. split; [done|lia].
    + right. eexists. split; [reflexivity|lia].
Qed.

Lemma closures_wf_checkWorkers env tenantId token wws : forall w,
  closures_wf w -> closures_wf (checkWorkers env tenantId token wws w).
Proof.
  induction wws as [|ww wws IH]; intros w Hwf; cbn [checkWorkers]; [done|].
  destruct (run env tenantId ww token w) as [w1 [c err]] eqn:Hrun.
  destruct (closures_wf_run _ _ _ _ _ _ _ _ Hrun Hwf) as [Hwf1 Hc].
  destruct err as [err|]; [by apply IH|].
  destruct Hc as [->|(m & -> & Hlt)]; [by apply IH|].
  apply IH. destruct Hwf1 as [Hm1 Hc1]. split; [exact Hm1|].
  cbn. apply Forall_app. split; [exact Hc1|]. repeat constructor. eauto.
Qed.

Lemma closures_wf_check env w : closures_wf w -> closures_wf (check env w).1.
Proof.
  unfold check. destruct (ListTenants env _) as [err|tenants]; [done|].
  change (closures_wf w) with (closures_wf (record CallListTenants w)).
  generalize (record CallListTenants w). clear w.
  induction tenants as [|tenantId tenants IH]; intros w Hwf; cbn [checkTenants]; [done|].
  cbv zeta. destruct (GenerateTenantToken env _ _) as [err|token]; [done|].
  destruct (ListWebhookWorkers env _ _) as [err|wws]; [done|].
  by apply IH, closures_wf_checkWorkers.
Qed.

Lemma closures_wf_upd m f w :
  (forall a, Forall flat (monCleanups a) -> Forall flat (monCleanups (f a))) ->
  closures_wf w -> closures_wf (updMonitor m f w).
Proof.
  intros Hf [Hm Hc]. unfold closures_wf. cbn. rewrite length_alter. split; [|exact Hc].
  apply Forall_alter; [exact Hm|]. intros a _. apply Hf.
Qed.

Lemma sameClosures_updateWorker env t i b w : sameClosures w (updateWorker env t i b w).
Proof. apply (updateWorker_frame sameClosures); intros; by unfold sameClosures. Qed.

Lemma closures_wf_tick env m w mon :
  monitors w !! m = Some mon ->
  registered (ID (monWW mon)) w ->
  closures_wf w -> closures_wf (tick env m w).1.
Proof.
  intros Hm Hreg Hwf. unfold tick. rewrite Hm. unfold healthcheck.
  destruct (match httpGet env (history w) (monWW mon) with
            | BadRequest _ | _ => _ end) as [e|h].
  - destruct (3 <? _); cbn [fst].
    + eapply closures_wf_same; [apply sameClosures_updateWorker|].
      by apply (closures_wf_upd m (setHealthCheckErrors _) w).
    + by apply (closures_wf_upd m (setHealthCheckErrors _) w).
  - destruct (negb _ || negb _).
    + destruct (rangeLog _ _ _) as [w4 [[]|v|]] eqn:Hrange;
        pose proof (still_rangeLog _ _ _ _ _ _ Hrange) as (Hr & _);
        apply sameClosures_rangeLog in Hrange;
        pose proof (closures_wf_same _ _ Hrange Hwf) as Hwf4; [|done..].
      destruct (run_registered env (monTenantId mon) (monWW mon) (monToken mon) w4)
        as [err ->]; [unfold registered; by rewrite Hr|].
      cbn [fst]. apply closures_wf_upd; [done|].
      apply closures_wf_upd; [intros; repeat constructor|].
      by destruct err.
    + cbn [fst]. apply closures_wf_upd; [done|].
      eapply closures_wf_same; [apply sameClosures_updateWorker|].
      assert (Hwf' : closures_wf
                (updMonitor m (setHashLast (hash (Workflows h)) (hash (Actions h))) w))
        by (by apply closures_wf_upd).
      by destruct (0 <? _).
Qed.

Lemma closures_wf_exec env o w w' :
  exec env o w = Some w' -> registry_covers w -> closures_wf w -> closures_wf w'.
Proof.
  unfold exec. destruct (panicked w); [done|]. destruct o as [|s|s k|m k].
  - by intros [= <-].
  - destruct (call env _ _ w) as [w1 [r|v|]] eqn:Hcall; [| |done];
      apply sameClosures_call in Hcall; intros [= <-] _ Hwf.
    + by apply (closures_wf_same w).
    + by apply (closures_wf_same w w1) in Hwf.
  - unfold scannerStep. destruct (scanners w !! s) as [sc|]; [|done].
    destruct (scanReturned sc); [done|]. destruct k.
    + destruct (scanCtxDone sc); [|done]. by intros [= <-].
    + pose proof (closures_wf_check env w) as Hc.
      destruct (check env w) as [w1 [[err|]|v|]]; [| | |done]; intros [= <-] _ Hwf;
        by apply Hc.
  - unfold monitorStep. destruct (monitors w !! m) as [mon|] eqn:Hm; [|done].
    destruct (returned mon); [done|]. destruct k.
    + destruct (ctxDone mon); [|done]. intros [= <-] _ Hwf. by apply closures_wf_upd.
    + destruct (timerC mon); [|done]. intros Hstep Hcov Hwf.
      pose proof (alter_lookup_Some receiveTimer _ _ _ Hm) as Hm0.
      assert (Hwf1 : closures_wf (tick env m (updMonitor m receiveTimer w)).1).
      { eapply closures_wf_tick; [exact Hm0| |by apply closures_wf_upd].
        cbn. apply (proj2 Hcov mon), list_elem_of_lookup. eauto. }
      destruct (tick env m _) as [w1 [[]|v|]]; [| |done]; injection Hstep as <-; done.
Qed.

Lemma reachable_closures_wf env w : reachable env w -> closures_wf w.
Proof.
  induction 1 as [|o w w' Hr IH Hex]; [by split; constructor|].
  eapply closures_wf_exec; [exact Hex| |exact IH].
  by apply (reachable_registry_covers env).
Qed.

(** In a reachable world a goroutine's turn and the shutdown never run out
    of fuel: [exec] gives [None] only for a step that is not enabled. *)
Lemma reachable_steps_finish env w :
  reachable env w ->
  (forall s, is_Some (scanners w !! s) ->
             (call env (fuelOf w) (startCleanup s) w).2 <> Unfinished) /\
  (forall m, is_Some (monitors w !! m) ->
             (tick env m (updMonitor m receiveTimer w)).2 <> Unfinished) /\
  (check env w).2 <> Unfinished.
Proof.
  intros Hr. pose proof (reachable_closures_wf env w Hr) as Hwf.
  split; [|split].
  - intros s Hs. by apply shutdown_finishes.
  - intros m [mon Hm]. apply tick_finishes; [by apply closures_wf_upd|].
    cbn. rewrite (alter_lookup_Some receiveTimer _ _ _ Hm). eauto.
  - apply check_finishes.
Qed.

(** ** One transport and one monitor per identity *)

Lemma monitorsOf_same_workers id (l l' : list monitor) :
  monWW <$> l' = monWW <$> l ->
  length (filter (fun mon => ID (monWW mon) = id) l')
  = length (filter (fun mon => ID (monWW mon) = id) l).
Proof.
  revert l'. induction l as [|a l IH]; intros [|b l'] H; try done.
  injection H as Hab H. rewrite !filter_cons, Hab.
  destruct (decide (ID (monWW a) = id)); cbn; rewrite (IH l' H); done.
Qed.

Lemma monitorsEvolve_workers w w' :
  length (monitors w') = length (monitors w) ->
  monitorsEvolve w w' ->
  monWW <$> monitors w' = monWW <$> monitors w.
Proof.
  intros Hl Hev. apply list_eq. intros i. rewrite !list_lookup_fmap.
  destruct (monitors w !! i) as [a|] eqn:Ha.
  - destruct (Hev i a Ha) as (b & -> & (_ & Hww & _)). cbn. by rewrite Hww.
  - apply lookup_ge_None in Ha. rewrite <- Hl in Ha.
    apply lookup_ge_None in Ha. by rewrite Ha.
Qed.

Lemma unique_per_id_still w w' :
  still w w' -> monitorsEvolve w w' -> unique_per_id w -> unique_per_id w'.
Proof.
  intros (_ & Ht & Hl) Hev Hu id. destruct (Hu id) as [Hut Hum].
  unfold transportsOf, monitorsOf in *. rewrite Ht.
  by rewrite (monitorsOf_same_workers id _ _ (monitorsEvolve_workers w w' Hl Hev)).
Qed.

Lemma unique_per_id_run env tenantId ww token w w' r :
  run env tenantId ww token w = (w', r) ->
  registry_covers w -> unique_per_id w -> unique_per_id w'.
Proof.
  destruct r as [c err]. intros H [Hts Hms] Hu id. destruct (Hu id) as [Hut Hum].
  apply run_inv in H as (_ & _ & _ & [(_ & Ht & Hm & _)|(h & Hnone & _ & _ & _ & Ht & Hm)]);
    unfold transportsOf, monitorsOf in *; rewrite Ht, Hm; [done|].
  rewrite !filter_app, !length_app, !filter_cons, !filter_nil. cbn.
  destruct (decide (ID ww = id)) as [<-|Hne]; cbn; [|lia].
  rewrite (filter_none _ (transports w)), (filter_none _ (monitors w)); [cbn; lia| |].
  - intros mon Hmon Heq. apply Hms in Hmon as [b Hb]. rewrite Heq in Hb. congruence.
  - intros o Ho Heq. apply Hts in Ho as [b Hb]. rewrite Heq in Hb. congruence.
Qed.

Lemma unique_per_id_same w w' :
  transports w' = transports w -> monitors w' = monitors w ->
  unique_per_id w -> unique_per_id w'.
Proof. unfold unique_per_id, transportsOf, monitorsOf. by intros -> ->. Qed.

Lemma unique_per_id_checkWorkers env tenantId token wws : forall w,
  registry_covers w -> unique_per_id w ->
  unique_per_id (checkWorkers env tenantId token wws w).
Proof.
  induction wws as [|ww wws IH]; intros w Hc Hu; cbn [checkWorkers]; [done|].
  destruct (run env tenantId ww token w) as [w1 [c err]] eqn:Hrun.
  pose proof (registry_covers_run _ _ _ _ _ _ _ Hrun Hc) as Hc1.
  pose proof (unique_per_id_run _ _ _ _ _ _ _ Hrun Hc Hu) as Hu1.
  destruct err as [err|]; [by apply IH|]. destruct c; by apply IH.
Qed.

Lemma unique_per_id_check env w :
  registry_covers w -> unique_per_id w -> unique_per_id (check env w).1.
Proof.
  unfold check. destruct (ListTenants env _) as [err|tenants]; [by intros|].
  change (registry_covers w) with (registry_covers (record CallListTenants w)).
  change (unique_per_id w) with (unique_per_id (record CallListTenants w)).
  generalize (record CallListTenants w). clear w.
  induction tenants as [|tenantId tenants IH]; intros w Hc Hu; cbn [checkTenants]; [done|].
  cbv zeta. destruct (GenerateTenantToken env _ _) as [err|token]; [done|].
  destruct (ListWebhookWorkers env _ _) as [err|wws]; [done|].
  apply IH.
  - by apply (checkWorkers_inv env tenantId token wws).
  - by apply unique_per_id_checkWorkers.
Qed.

Lemma unique_per_id_exec env o w w' :
  exec env o w = Some w' -> registry_covers w -> unique_per_id w -> unique_per_id w'.
Proof.
  unfold exec. destruct (panicked w); [done|]. destruct o as [|s|s k|m k].
  - by intros [= <-].
  - destruct (call env _ _ w) as [w1 [r|v|]] eqn:Hcall; [| |done];
      pose proof (monitorsEvolve_call _ _ _ _ _ _ Hcall) as He;
      pose proof (still_call _ _ _ _ _ _ Hcall) as Hs;
      intros [= <-] _ Hu.
    + by apply (unique_per_id_still w).
    + by apply (unique_per_id_still w w1) in Hu.
  - unfold scannerStep. destruct (scanners w !! s) as [sc|]; [|done].
    destruct (scanReturned sc); [done|]. destruct k.
    + destruct (scanCtxDone sc); [|done]. by intros [= <-].
    + pose proof (unique_per_id_check env w) as Hc.
      destruct (check env w) as [w1 [[err|]|v|]]; [| | |done]; intros [= <-] Hcov Hu;
        by apply Hc.
  - intros H Hcov Hu. apply monitorStep_inv in H as [He Hs].
    by apply (unique_per_id_still w); auto.
Qed.

(** In every reachable world an identity has at most one transport and at
    most one monitor. *)
Lemma reachable_unique_per_id env w : reachable env w -> unique_per_id w.
Proof.
  induction 1 as [|o w w' Hr IH Hex]; [by intros id; cbn; lia|].
  eapply unique_per_id_exec; [exact Hex| |exact IH].
  by apply (reachable_registry_covers env).
Qed.

(** * Further properties of the code *)

(** ** [hash]: what equal fingerprints tell *)

Lemma append_cons c s r : String c s +:+ r = String c (s +:+ r).
Proof. reflexivity. Qed.

Lemma append_empty_r s : s +:+ "" = s.
Proof. induction s as [|c s IH]; [done|]. by rewrite append_cons, IH. Qed.

Lemma concat_cons x xs : String.concat "," (x :: xs) = x +:+ joinTail xs.
Proof. destruct xs; cbn [String.concat joinTail]; [by rewrite append_empty_r|done]. Qed.

(** Two comma-free elements followed by what [Join] puts after an element
    agree only if the elements and what follows them agree. *)
Lemma element_split x : forall y r r',
  commaFree x -> commaFree y ->
  (r = "" \/ exists r0, r = String comma r0) ->
  (r' = "" \/ exists r0, r' = String comma r0) ->
  x +:+ r = y +:+ r' -> x = y /\ r = r'.
Proof.
  unfold commaFree.
  induction x as [|c x IH]; intros [|d y] r r' Hx Hy Hr Hr' H.
  - done.
  - rewrite append_cons in H. change ("" +:+ r) with r in H. subst r.
    destruct Hr as [?|[r0 [= -> _]]]; [done|]. by cbn in Hy.
  - rewrite append_cons in H. change ("" +:+ r') with r' in H. subst r'.
    destruct Hr' as [?|[r0 [= -> _]]]; [done|]. by cbn in Hx.
  - rewrite !append_cons in H. injection H as -> H. cbn in Hx, Hy.
    apply orb_false_iff in Hx as [_ Hx]. apply orb_false_iff in Hy as [_ Hy].
    destruct (IH y r r' Hx Hy Hr Hr' H) as [-> ->]. done.
Qed.

Lemma joinTail_shape xs : joinTail xs = "" \/ exists r0, joinTail xs = String comma r0.
Proof. destruct xs; cbn; eauto. Qed.

Lemma concat_inj l1 : forall l2,
  Forall commaFree l1 -> Forall commaFree l2 -> l1 <> [] -> l2 <> [] ->
  String.concat "," l1 = String.concat "," l2 -> l1 = l2.
Proof.
  induction l1 as [|x xs IH]; intros [|y ys] H1 H2 Hn1 Hn2 H; try done.
  rewrite !concat_cons in H.
  apply Forall_cons in H1 as [Hx Hxs]. apply Forall_cons in H2 as [Hy Hys].
  destruct (element_split x y _ _ Hx Hy (joinTail_shape xs) (joinTail_shape ys) H)
    as [-> Ht].
  f_equal. destruct xs as [|x' xs], ys as [|y' ys]; try done.
  cbn [joinTail] in Ht. injection Ht as Ht. by apply IH.
Qed.

Lemma concat_empty l : String.concat "," l = "" -> l = [] \/ l = [""].
Proof.
  destruct l as [|x xs]; [auto|]. rewrite concat_cons. intros H. right.
  destruct x as [|c x]; [|done]. change ("" +:+ joinTail xs) with (joinTail xs) in H.
  by destruct xs.
Qed.

Lemma hash_empty s : hash s = "" -> s = [] \/ s = [""].
Proof.
  unfold hash, Join. intros H. apply concat_empty in H as [H|H].
  - left. apply Permutation_nil. by rewrite <- H, Sort_Permutation.
  - right. symmetry. apply Permutation_singleton_l. by rewrite <- H, Sort_Permutation.
Qed.

(** X1: among lists whose elements hold no comma, equal fingerprints mean
    the same elements with the same multiplicities, but for the one
    collision of the empty list with the list of one empty string. *)
Theorem hash_comma_free_injective (s1 s2 : list string) :
  Forall commaFree s1 -> Forall commaFree s2 ->
  hash s1 = hash s2 ->
  s1 ≡ₚ s2 \/ ((s1 = [] \/ s1 = [""]) /\ (s2 = [] \/ s2 = [""])).
Proof.
  intros H1 H2 H.
  destruct (decide (s1 = [])) as [->|Hn1].
  { right. split; [auto|]. apply hash_empty. by rewrite <- H. }
  destruct (decide (s2 = [])) as [->|Hn2].
  { right. split; [|auto]. apply hash_empty. by rewrite H. }
  left. rewrite <- (Sort_Permutation s1), <- (Sort_Permutation s2).
  assert (Hnil : forall s, Sort s = [] -> s = []).
  { intros s Hs. apply Permutation_nil. by rewrite <- Hs, Sort_Permutation. }
  rewrite (concat_inj (Sort s1) (Sort s2)); [done| | | | |exact H].
  - by rewrite Sort_Permutation.
  - by rewrite Sort_Permutation.
  - intros Hs. by apply Hn1, Hnil.
  - intros Hs. by apply Hn2, Hnil.
Qed.

Lemma hash_comma_free_injective_witness :
  ["b"; "a"] ≡ₚ ["a"; "b"] \/
  ((["b"; "a"] = [] \/ ["b"; "a"] = [""]) /\ (["a"; "b"] = [] \/ ["a"; "b"] = [""])).
Proof.
  apply (hash_comma_free_injective ["b"; "a"] ["a"; "b"]).
  - repeat constructor.
  - repeat constructor.
  - vm_compute. reflexivity.
Defined.

(** X2: the delimiter is not escaped: two elements in ascending order have
    the fingerprint of the single element that joins them with a comma. *)
Theorem hash_delimiter_collision (x y : string) :
  String.le x y -> hash [x; y] = hash [x +:+ "," +:+ y].
Proof.
  intros Hle. unfold hash, Join.
  rewrite <- (Sort_unique [x; y] [x; y]), <- (Sort_unique [x +:+ "," +:+ y] [x +:+ "," +:+ y]);
    [done|repeat constructor|done|repeat constructor; done|done].
Qed.

Lemma hash_delimiter_collision_witness : hash ["a"; "b"] = hash ["a,b"].
Proof. apply (hash_delimiter_collision "a" "b"). vm_compute. exact I. Defined.

(** ** [healthcheck] *)

(** X3: [healthcheck] returns a manifest exactly when the reply has status
    200 and a body that is read and parsed, and then it is the parsed
    manifest; a reply with another status fails with the status in its
    message, whatever its body. *)
Theorem healthcheck_succeeds_iff env ww w :
  (forall res,
     probe env ww w = inr res <->
     httpGet env (history w) ww = Reply 200 (inr (inr res))) /\
  (forall status body,
     httpGet env (history w) ww = Reply status body -> status <> 200 ->
     probe env ww w
     = inl (errorString ("request failed with status code " +:+ pretty status))).
Proof.
  unfold probe, healthcheck. cbn [snd]. split.
  - intros res. destruct (httpGet env (history w) ww) as [e|e|status body]; [done..|].
    destruct (Z.eqb_spec status 200) as [->|Hne]; cbn [negb].
    + destruct body as [e|[e|h]]; split; intros H; try done; congruence.
    + split; intros H; [done|]. congruence.
  - intros status body -> Hne. by destruct (Z.eqb_spec status 200).
Qed.

(** ** [run]: what a startup leaves behind *)

(** What [run] adds to the history: its probe, then the creation and the
    start of the transport as far as it got; it logs nothing. *)
Lemma run_history env tenantId ww token w w' r :
  run env tenantId ww token w = (w', r) ->
  logs w' = logs w /\
  exists l, history w' = history w ++ CallHealthcheck ww :: l /\
            (l = [] \/ (exists o, l = [CallNewWorker o]) \/
             (exists o, l = [CallNewWorker o; CallWorkerStart o])).
Proof.
  unfold run, healthcheck.
  destruct (match httpGet env (history w) ww with
            | BadRequest _ | _ => _ end) as [e|h]; [intros [= <- _]; cbn; eauto|].
  cbn [record registeredWorkerIds].
  destruct (registeredWorkerIds w !! ID ww); [intros [= <- _]; cbn; eauto|].
  cbv zeta. destruct (NewWorker env _ _).
  { intros [= <- _]. cbn. split; [done|]. eexists. rewrite <- app_assoc. eauto 6. }
  destruct (WorkerStart env _ _); intros [= <- _]; cbn; (split; [done|]);
    eexists; rewrite <- !app_assoc; cbn; eauto 6.
Qed.

(** When [run] starts a worker: the probe succeeds, the identity is free,
    and the transport is created and started without error. *)
Lemma run_starts env tenantId ww token w h :
  let opts := {| optToken := token; optID := ID ww; optSecret := Secret ww;
                 optURL := URL ww; optTenantID := tenantId;
                 optActions := Actions h; optWorkflows := Workflows h |} in
  probe env ww w = inr h ->
  registeredWorkerIds w !! ID ww = None ->
  NewWorker env (history w ++ [CallHealthcheck ww]) opts = None ->
  WorkerStart env (history w ++ [CallHealthcheck ww; CallNewWorker opts]) opts = None ->
  exists w',
    run env tenantId ww token w = (w', (runCleanup (length (monitors w)), None)) /\
    registeredWorkerIds w' = <[ID ww := true]> (registeredWorkerIds w) /\
    transports w' = transports w ++ [opts] /\
    monitors w' = monitors w ++
                  [spawnMonitor tenantId ww token [workerCleanup (length (transports w))] h] /\
    history w' = history w ++ [CallHealthcheck ww; CallNewWorker opts; CallWorkerStart opts] /\
    cleanups w' = cleanups w.
Proof.
  intros opts Hp Hfree Hnew Hstart. unfold run.
  unfold probe in Hp. destruct (healthcheck env ww w) as [w1 r] eqn:Hh.
  cbn in Hp. subst r. unfold healthcheck in Hh. injection Hh as <- _.
  cbn [record registeredWorkerIds]. rewrite Hfree. cbv zeta.
  cbn [setRegistered record history]. fold opts. rewrite Hnew.
  rewrite <- app_assoc. cbn [app]. rewrite Hstart.
  eexists. split; [reflexivity|]. cbn. rewrite <- !app_assoc. done.
Qed.

Lemma run_probe_failed env tenantId ww token w :
  failed (probe env ww w) ->
  exists e, run env tenantId ww token w
            = (record (CallHealthcheck ww) w, (nilFunc, Some e)).
Proof.
  unfold probe, run. destruct (healthcheck env ww w) as [w1 r] eqn:Hh. cbn [snd].
  destruct r as [e|h]; [|done]. intros _.
  unfold healthcheck in Hh. injection Hh as <- _. eauto.
Qed.

(** X4: a worker that does not answer its startup probe is reported and
    left unregistered, so that a later [run] for it, once it answers and its
    transport comes up, starts it. *)
Theorem down_worker_is_started_later env tenantId ww token w :
  failed (probe env ww w) ->
  registeredWorkerIds w !! ID ww = None ->
  (exists e, run env tenantId ww token w
             = (record (CallHealthcheck ww) w, (nilFunc, Some e))) /\
  forall h,
    probe env ww (record (CallHealthcheck ww) w) = inr h ->
    NewWorker env (history w ++ [CallHealthcheck ww; CallHealthcheck ww])
      (optsOf tenantId ww token h) = None ->
    WorkerStart env (history w ++ [CallHealthcheck ww; CallHealthcheck ww;
                                   CallNewWorker (optsOf tenantId ww token h)])
      (optsOf tenantId ww token h) = None ->
    exists w2,
      run env tenantId ww token (record (CallHealthcheck ww) w)
      = (w2, (runCleanup (length (monitors w)), None)) /\
      registered (ID ww) w2 /\
      transports w2 = transports w ++ [optsOf tenantId ww token h] /\
      length (monitors w2) = S (length (monitors w)).
Proof.
  intros Hf Hfree. split; [by apply run_probe_failed|].
  intros h Hp Hnew Hstart.
  destruct (run_starts env tenantId ww token (record (CallHealthcheck ww) w) h)
    as (w2 & Hrun & Hreg & Ht & Hm & _); try done.
  - cbn. by rewrite <- app_assoc.
  - cbn. by rewrite <- app_assoc.
  - exists w2. split; [exact Hrun|]. split; [|split; [exact Ht|]].
    + unfold registered. rewrite Hreg. cbn. rewrite lookup_insert_eq. eauto.
    + rewrite Hm, length_app. cbn. lia.
Qed.

Lemma down_worker_is_started_later_witness :
  (exists e, run lateEnv "t1" worker1 "token-t1" New
             = (record (CallHealthcheck worker1) New, (nilFunc, Some e))) /\
  forall h,
    probe lateEnv worker1 (record (CallHealthcheck worker1) New) = inr h ->
    NewWorker lateEnv (history New ++ [CallHealthcheck worker1; CallHealthcheck worker1])
      (optsOf "t1" worker1 "token-t1" h) = None ->
    WorkerStart lateEnv (history New ++ [CallHealthcheck worker1; CallHealthcheck worker1;
                                         CallNewWorker (optsOf "t1" worker1 "token-t1" h)])
      (optsOf "t1" worker1 "token-t1" h) = None ->
    exists w2,
      run lateEnv "t1" worker1 "token-t1" (record (CallHealthcheck worker1) New)
      = (w2, (runCleanup (length (monitors New)), None)) /\
      registered (ID worker1) w2 /\
      transports w2 = transports New ++ [optsOf "t1" worker1 "token-t1" h] /\
      length (monitors w2) = S (length (monitors New)).
Proof.
  apply (down_worker_is_started_later lateEnv "t1" worker1 "token-t1" New).
  - vm_compute. exact I.
  - reflexivity.
Defined.

(** X5: when the transport cannot be created or started, [run] reports the
    error but keeps the identity registered, with no transport and no
    monitor; any further [run] for that identity then stops at the guard
    without trying the transport again. *)
Theorem failed_start_consumes_identity env tenantId ww token w h e :
  probe env ww w = inr h ->
  registeredWorkerIds w !! ID ww = None ->
  NewWorker env (history w ++ [CallHealthcheck ww]) (optsOf tenantId ww token h) = Some e \/
  (NewWorker env (history w ++ [CallHealthcheck ww]) (optsOf tenantId ww token h) = None /\
   WorkerStart env (history w ++ [CallHealthcheck ww;
                                  CallNewWorker (optsOf tenantId ww token h)])
     (optsOf tenantId ww token h) = Some e) ->
  exists w1 err,
    run env tenantId ww token w = (w1, (nilFunc, Some err)) /\
    registered (ID ww) w1 /\
    transports w1 = transports w /\ monitors w1 = monitors w /\
    forall tenantId' token',
      exists err', run env tenantId' ww token' w1
                   = (record (CallHealthcheck ww) w1, (nilFunc, err')).
Proof.
  intros Hp Hfree Hfail.
  assert (Hrun : exists w1 err,
             run env tenantId ww token w = (w1, (nilFunc, Some err)) /\
             registeredWorkerIds w1 = <[ID ww := true]> (registeredWorkerIds w) /\
             transports w1 = transports w /\ monitors w1 = monitors w).
  { unfold run. unfold probe in Hp. destruct (healthcheck env ww w) as [w0 r] eqn:Hh.
    cbn in Hp. subst r. unfold healthcheck in Hh. injection Hh as <- _.
    cbn [record registeredWorkerIds]. rewrite Hfree. cbv zeta.
    cbn [setRegistered record history]. fold (optsOf tenantId ww token h).
    destruct Hfail as [Hnew|[Hnew Hstart]]; rewrite Hnew.
    - eexists _, _. split; [reflexivity|]. done.
    - rewrite <- app_assoc. cbn [app]. rewrite Hstart.
      eexists _, _. split; [reflexivity|]. done. }
  destruct Hrun as (w1 & err & Hrun & Hreg & Ht & Hm).
  assert (Hreg1 : registered (ID ww) w1).
  { unfold registered. rewrite Hreg, lookup_insert_eq. eauto. }
  exists w1, err. repeat (split; [done|]).
  intros tenantId' token'. by apply run_registered.
Qed.

Lemma failed_start_consumes_identity_witness :
  exists w1 err,
    run refusingEnv "t1" worker1 "token-t1" New = (w1, (nilFunc, Some err)) /\
    registered (ID worker1) w1 /\
    transports w1 = transports New /\ monitors w1 = monitors New /\
    forall tenantId' token',
      exists err', run refusingEnv tenantId' worker1 token' w1
                   = (record (CallHealthcheck worker1) w1, (nilFunc, err')).
Proof.
  apply (failed_start_consumes_identity refusingEnv "t1" worker1 "token-t1" New
           {| Actions := ["a"]; Workflows := ["wf"] |} (errorString "dial failed")).
  - reflexivity.
  - reflexivity.
  - right. split; reflexivity.
Defined.

(** ** What every turn keeps *)

(** A relation that holds across each elementary step of the program, with
    [run] taken as one step, holds across ticks, scans, turns and
    schedules. *)
Section turns.
Context (R : relation World) `{!PreOrder R}.
Hypothesis R_logf : forall line w, R w (logf line w).
Hypothesis R_upd :
  forall m f w, (forall a, monWW (f a) = monWW a) -> R w (updMonitor m f w).
Hypothesis R_scanners : forall f w, R w (setScanners f w).
Hypothesis R_cleanups : forall f w, R w (setCleanups f w).
Hypothesis R_panicked : forall v w, R w (setPanicked v w).
Hypothesis R_release : forall t w, R w (record (CallRelease t) w).
Hypothesis R_probe : forall ww w, R w (record (CallHealthcheck ww) w).
Hypothesis R_update : forall t i b w, R w (record (CallUpdateWorker t i b) w).
Hypothesis R_tenants : forall w, R w (record CallListTenants w).
Hypothesis R_token : forall t w, R w (record (CallGenerateTenantToken t) w).
Hypothesis R_workers : forall t w, R w (record (CallListWebhookWorkers t) w).
Hypothesis R_run :
  forall env tenantId ww token w w' r, run env tenantId ww token w = (w', r) -> R w w'.

Lemma call_turn env fuel : forall f w w' o, call env fuel f w = (w', o) -> R w w'.
Proof.
  induction fuel as [|fuel IH]; intros f w w' o; destruct f as [|t|m|s]; cbn [call];
    try (intros [= <- _]; first [reflexivity|apply R_release]).
  - destruct (monitors w !! m) as [mon|]; [|intros [= <- _]; reflexivity].
    intros H. transitivity (updMonitor m cancelMonitor w); [by apply R_upd|].
    by eapply rangeReturn_frame.
  - destruct (scanners w !! s) as [sc|]; [|intros [= <- _]; reflexivity].
    intros H. transitivity (setScanners (alter cancelScanner s) w); [apply R_scanners|].
    by eapply rangeReturn_frame.
Qed.

Lemma updateWorker_turn env t i b w : R w (updateWorker env t i b w).
Proof.
  unfold updateWorker. destruct (UpdateWorker env _ _ _ _); apply R_update.
Qed.

Lemma step_logf w w' line : R w w' -> R w (logf line w').
Proof. intros H. etransitivity; [exact H|apply R_logf]. Qed.

Lemma step_upd w w' m f :
  (forall a, monWW (f a) = monWW a) -> R w w' -> R w (updMonitor m f w').
Proof. intros Hf H. etransitivity; [exact H|by apply R_upd]. Qed.

Lemma step_updateWorker env t i b w w' : R w w' -> R w (updateWorker env t i b w').
Proof. intros H. etransitivity; [exact H|apply updateWorker_turn]. Qed.

Lemma tick_turn env m w : R w (tick env m w).1.
Proof.
  unfold tick. destruct (monitors w !! m) as [mon|]; [|reflexivity].
  unfold healthcheck.
  destruct (match httpGet env (history w) (monWW mon) with
            | BadRequest _ | _ => _ end) as [e|h].
  - destruct (3 <? _); cbn [fst];
      repeat first [apply step_updateWorker | apply step_logf | apply step_upd; [done|]];
      apply R_probe.
  - destruct (negb _ || negb _).
    + destruct (rangeLog _ _ _) as [w4 [[]|v|]] eqn:Hrange;
        apply (rangeLog_frame R _ (call_turn env _)) in Hrange.
      * destruct (run env _ _ _ w4) as [w5 [c err]] eqn:Hrun. apply R_run in Hrun.
        cbn [fst]. do 2 (apply step_upd; [done|]).
        assert (R w w5).
        { etransitivity; [|exact Hrun]. etransitivity; [|exact Hrange].
          do 3 apply step_logf. apply R_probe. }
        by destruct err.
      * cbn [fst]. etransitivity; [|exact Hrange]. do 3 apply step_logf. apply R_probe.
      * cbn [fst]. etransitivity; [|exact Hrange]. do 3 apply step_logf. apply R_probe.
    + cbn [fst]. apply step_upd; [done|]. apply step_updateWorker.
      destruct (0 <? _); [apply step_logf|]; (apply step_upd; [done|]);
        do 2 apply step_logf; apply R_probe.
Qed.

Lemma checkWorkers_turn env tenantId token wws : forall w,
  R w (checkWorkers env tenantId token wws w).
Proof.
  induction wws as [|ww wws IH]; intros w; cbn [checkWorkers]; [reflexivity|].
  destruct (run env tenantId ww token w) as [w1 [c err]] eqn:Hrun. apply R_run in Hrun.
  destruct err as [err|].
  - etransitivity; [|apply IH]. by apply step_logf.
  - destruct c; (etransitivity; [|apply IH]); try done;
      (etransitivity; [exact Hrun|apply R_cleanups]).
Qed.

Lemma check_turn env w : R w (check env w).1.
Proof.
  unfold check. destruct (ListTenants env _) as [err|tenants]; [apply R_tenants|].
  transitivity (record CallListTenants w); [apply R_tenants|].
  generalize (record CallListTenants w). clear w.
  induction tenants as [|tenantId tenants IH]; intros w; cbn [checkTenants]; [reflexivity|].
  cbv zeta. destruct (GenerateTenantToken env _ _) as [err|token]; [apply R_token|].
  destruct (ListWebhookWorkers env _ _) as [err|wws].
  - cbn [fst]. etransitivity; [apply R_token|apply R_workers].
  - etransitivity; [|apply IH]. etransitivity; [|apply checkWorkers_turn].
    etransitivity; [apply R_token|apply R_workers].
Qed.

Lemma exec_turn env o w w' : exec env o w = Some w' -> R w w'.
Proof.
  unfold exec. destruct (panicked w); [done|]. destruct o as [|s|s k|m k].
  - intros [= <-]. apply R_scanners.
  - destruct (call env _ _ w) as [w1 [r|v|]] eqn:Hcall; [| |done];
      apply call_turn in Hcall; intros [= <-]; [done|].
    etransitivity; [exact Hcall|apply R_panicked].
  - unfold scannerStep. destruct (scanners w !! s) as [sc|]; [|done].
    destruct (scanReturned sc); [done|]. destruct k.
    + destruct (scanCtxDone sc); [|done]. intros [= <-]. apply R_scanners.
    + pose proof (check_turn env w) as Hc.
      destruct (check env w) as [w1 [[err|]|v|]]; [| | |done]; intros [= <-];
        cbn [fst] in Hc; [by apply step_logf|done|].
      etransitivity; [exact Hc|apply R_panicked].
  - unfold monitorStep. destruct (monitors w !! m) as [mon|]; [|done].
    destruct (returned mon); [done|]. destruct k.
    + destruct (ctxDone mon); [|done]. intros [= <-]. by apply R_upd.
    + destruct (timerC mon); [|done].
      pose proof (tick_turn env m (updMonitor m receiveTimer w)) as Ht.
      assert (R w (updMonitor m receiveTimer w)) as H0 by (by apply R_upd).
      destruct (tick env m _) as [w1 [[]|v|]]; [| |done]; intros [= <-]; cbn [fst] in Ht.
      * by etransitivity.
      * etransitivity; [exact H0|]. etransitivity; [exact Ht|apply R_panicked].
Qed.

Lemma execs_turn env ops : forall w w', execs env ops w = Some w' -> R w w'.
Proof.
  induction ops as [|o ops IH]; intros w w'; cbn [execs].
  - intros [= <-]. reflexivity.
  - destruct (exec env o w) as [w1|] eqn:Hex; [|done]. intros H.
    etransitivity; [by apply (exec_turn env o w w1)|by apply IH].
Qed.
End turns.

(** ** A registered identity is never started again *)

#[local] Instance keeps_preorder id : PreOrder (keeps id).
Proof.
  split.
  - intros w Hr. done.
  - intros w1 w2 w3 H12 H23 Hr. destruct (H12 Hr) as (Hr2 & ? & ? & ?).
    destruct (H23 Hr2) as (Hr3 & ? & ? & ?). repeat split; [done|congruence..].
Qed.

Lemma keeps_same id w w' :
  registeredWorkerIds w' = registeredWorkerIds w ->
  omap newOf (history w') = omap newOf (history w) ->
  transports w' = transports w ->
  monWW <$> monitors w' = monWW <$> monitors w ->
  keeps id w w'.
Proof.
  intros Hr Hh Ht Hm Hreg. unfold registered, attemptsOf, transportsOf, monitorsOf.
  rewrite Hr, Hh, Ht. repeat split; try done. by apply monitorsOf_same_workers.
Qed.

Lemma keeps_record id e w : newOf e = None -> keeps id w (record e w).
Proof.
  intros He. apply keeps_same; try done. cbn. rewrite omap_app. cbn. rewrite He.
  by rewrite app_nil_r.
Qed.

Lemma keeps_upd id m f w :
  (forall a, monWW (f a) = monWW a) -> keeps id w (updMonitor m f w).
Proof.
  intros Hf. apply keeps_same; try done. cbn.
  rewrite (list_fmap_alter monWW f (fun x => x)); [by apply list_alter_id|].
  apply Forall_forall. intros a _. apply Hf.
Qed.

Lemma keeps_run id env tenantId ww token w w' r :
  run env tenantId ww token w = (w', r) -> keeps id w w'.
Proof.
  intros Hrun Hreg. destruct (decide (ID ww = id)) as [<-|Hne].
  { destruct (run_registered env tenantId ww token w Hreg) as [err Heq].
    rewrite Heq in Hrun. injection Hrun as <- _.
    by apply (keeps_record (ID ww) (CallHealthcheck ww) w). }
  destruct r as [c err].
  destruct (run_history _ _ _ _ _ _ _ Hrun) as (_ & l & Hh & Hl).
  assert (Hatt : attemptsOf id w' = attemptsOf id w).
  { unfold attemptsOf. rewrite Hh, omap_app, filter_app.
    change (omap newOf (CallHealthcheck ww :: l)) with (omap newOf l).
    cut (filter (fun o => optID o = id) (omap newOf l) = []);
      [intros ->; by rewrite app_nil_r|].
    revert Hrun. unfold run, healthcheck.
    destruct (match httpGet env (history w) ww with
              | BadRequest _ | _ => _ end) as [e|h].
    { intros [= <- _]. cbn in Hh. apply app_inv_head in Hh. by injection Hh as <-. }
    cbn [record registeredWorkerIds].
    destruct (registeredWorkerIds w !! ID ww).
    { intros [= <- _]. cbn in Hh. apply app_inv_head in Hh. by injection Hh as <-. }
    cbv zeta. destruct (NewWorker env _ _).
    { intros [= <- _]. cbn in Hh. rewrite <- app_assoc in Hh.
      apply app_inv_head in Hh. injection Hh as <-.
      change (filter (fun o => optID o = id) [optsOf tenantId ww token h] = []).
      by rewrite filter_cons_False. }
    destruct (WorkerStart env _ _); intros [= <- _]; cbn in Hh;
      rewrite <- !app_assoc in Hh; apply app_inv_head in Hh; injection Hh as <-;
      change (filter (fun o => optID o = id) [optsOf tenantId ww token h] = []);
      by rewrite filter_cons_False. }
  apply run_inv in Hrun as (_ & _ & _ & [(_ & Ht & Hm & Hr)|(h & _ & _ & _ & Hr & Ht & Hm)]).
  - split; [|split; [done|]].
    + destruct Hr as [Hr|(_ & _ & Hr)]; unfold registered; rewrite Hr; [done|].
      by apply (registered_insert id (ID ww) w).
    + unfold transportsOf, monitorsOf. by rewrite Ht, Hm.
  - split; [|split; [done|]].
    + unfold registered. rewrite Hr. by apply (registered_insert id (ID ww) w).
    + unfold transportsOf, monitorsOf. rewrite Ht, Hm, !filter_app.
      rewrite !filter_cons_False by done. by rewrite !filter_nil, !app_nil_r.
Qed.

Lemma keeps_execs id env ops w w' : execs env ops w = Some w' -> keeps id w w'.
Proof.
  apply (execs_turn (keeps id)); intros;
    first [ by apply keeps_upd | by apply keeps_record
          | by eapply keeps_run | by apply keeps_same ].
Qed.

(** X6: once an identity is registered, whatever is scheduled afterwards it
    stays registered, and no transport is created or started and no monitor
    spawned under it again. *)
Theorem registered_identity_is_not_started_again env id ops w w' :
  registered id w ->
  execs env ops w = Some w' ->
  registered id w' /\
  attemptsOf id w' = attemptsOf id w /\
  transportsOf id w' = transportsOf id w /\
  length (monitorsOf id w') = length (monitorsOf id w).
Proof. intros Hreg Hex. by apply (keeps_execs id env ops w w'). Qed.

Lemma registered_identity_is_not_started_again_witness :
  after (execs steadyEnv schedule1 (started1 steadyEnv)) (fun w' =>
    registered "w1" w' /\
    attemptsOf "w1" w' = attemptsOf "w1" (started1 steadyEnv) /\
    transportsOf "w1" w' = transportsOf "w1" (started1 steadyEnv) /\
    length (monitorsOf "w1" w') = length (monitorsOf "w1" (started1 steadyEnv))).
Proof.
  destruct (execs steadyEnv schedule1 (started1 steadyEnv)) as [w'|] eqn:Hex.
  - apply (registered_identity_is_not_started_again steadyEnv "w1" schedule1
             (started1 steadyEnv) w'); [|exact Hex].
    vm_compute. eexists. reflexivity.
  - vm_compute in Hex. discriminate Hex.
Defined.

(** ** [c.cleanups] *)

#[local] Instance sameCleanups_preorder : PreOrder sameCleanups.
Proof. split; [by intros w|]. intros w1 w2 w3. unfold sameCleanups. congruence. Qed.

Lemma sameCleanups_run env tenantId ww token w w' r :
  run env tenantId ww token w = (w', r) -> sameCleanups w w'.
Proof. destruct r as [c err]. intros H. by apply run_inv in H as (? & _). Qed.

Lemma sameCleanups_tick env m w : sameCleanups w (tick env m w).1.
Proof.
  apply (tick_turn sameCleanups); try (intros; by unfold sameCleanups).
  intros. by eapply sameCleanups_run.
Qed.

Lemma sameCleanups_call env fuel f w w' o :
  call env fuel f w = (w', o) -> sameCleanups w w'.
Proof. apply (call_turn sameCleanups); intros; by unfold sameCleanups. Qed.

Lemma cleanups_cover_checkWorkers env tenantId token wws : forall w,
  cleanups_cover w -> cleanups_cover (checkWorkers env tenantId token wws w).
Proof.
  induction wws as [|ww wws IH]; intros w Hc; cbn [checkWorkers]; [done|].
  destruct (run env tenantId ww token w) as [w1 [c err]] eqn:Hrun.
  apply run_inv in Hrun as (Hcs & _ & _ & [(-> & _ & Hm & _)
                                          |(h & _ & -> & -> & _ & _ & Hm)]).
  - assert (cleanups_cover w1) by (unfold cleanups_cover; by rewrite Hcs, Hm).
    destruct err; by apply IH.
  - apply IH. unfold cleanups_cover. cbn. rewrite Hcs, Hm, Hc, length_app. cbn.
    by rewrite seq_app, fmap_app.
Qed.

Lemma cleanups_cover_check env w : cleanups_cover w -> cleanups_cover (check env w).1.
Proof.
  unfold check. destruct (ListTenants env _) as [err|tenants]; [done|].
  change (cleanups_cover w) with (cleanups_cover (record CallListTenants w)).
  generalize (record CallListTenants w). clear w.
  induction tenants as [|tenantId tenants IH]; intros w Hc; cbn [checkTenants]; [done|].
  cbv zeta. destruct (GenerateTenantToken env _ _) as [err|token]; [done|].
  destruct (ListWebhookWorkers env _ _) as [err|wws]; [done|].
  by apply IH, cleanups_cover_checkWorkers.
Qed.

Lemma cleanups_cover_exec env o w w' :
  exec env o w = Some w' -> registry_covers w -> cleanups_cover w -> cleanups_cover w'.
Proof.
  intros Hex Hcov Hc. revert Hex.
  unfold exec. destruct (panicked w); [done|]. destruct o as [|s|s k|m k].
  - by intros [= <-].
  - destruct (call env _ _ w) as [w1 [r|v|]] eqn:Hcall; [| |done];
      pose proof (sameCleanups_call _ _ _ _ _ _ Hcall) as Hs;
      pose proof (still_call _ _ _ _ _ _ Hcall) as (_ & _ & Hl);
      intros [= <-]; unfold cleanups_cover; cbn; by rewrite Hs, Hl.
  - unfold scannerStep. destruct (scanners w !! s) as [sc|]; [|done].
    destruct (scanReturned sc); [done|]. destruct k.
    + destruct (scanCtxDone sc); [|done]. by intros [= <-].
    + pose proof (cleanups_cover_check env w Hc) as Hc'.
      destruct (check env w) as [w1 [[err|]|v|]]; [| | |done]; by intros [= <-].
  - intros Hstep.
    assert (Hs : sameCleanups w w').
    { revert Hstep. unfold monitorStep. destruct (monitors w !! m) as [mon|]; [|done].
      destruct (returned mon); [done|]. destruct k.
      - destruct (ctxDone mon); [|done]. by intros [= <-].
      - destruct (timerC mon); [|done].
        pose proof (sameCleanups_tick env m (updMonitor m receiveTimer w)) as Ht.
        destruct (tick env m _) as [w1 [[]|v|]]; [| |done]; by intros [= <-]. }
    apply monitorStep_inv in Hstep as [_ Hst]. destruct (Hst Hcov) as (_ & _ & Hl).
    unfold cleanups_cover. by rewrite Hs, Hl.
Qed.

(** X11: in every reachable world [c.cleanups] holds exactly the closure of
    each monitor spawned, once, in spawn order: never nil, never a closure
    twice. *)
Theorem cleanups_hold_every_monitor env w :
  reachable env w -> cleanups w = runCleanup <$> seq 0 (length (monitors w)).
Proof.
  induction 1 as [|o w w' Hr IH Hex]; [done|].
  eapply cleanups_cover_exec; [exact Hex| |exact IH].
  by apply (reachable_registry_covers env).
Qed.

Lemma reachable_execs env ops : forall w w',
  reachable env w -> execs env ops w = Some w' -> reachable env w'.
Proof.
  induction ops as [|o ops IH]; intros w w' Hr; cbn [execs]; [by intros [= <-]|].
  destruct (exec env o w) as [w1|] eqn:Hex; [|done].
  apply IH. by apply (reachable_exec env o w w1).
Qed.

Lemma cleanups_hold_every_monitor_witness :
  after (execs stubbornEnv schedule0 New) (fun w =>
    length (monitors w) = 2%nat /\
    cleanups w = runCleanup <$> seq 0 (length (monitors w))).
Proof.
  destruct (execs stubbornEnv schedule0 New) as [w|] eqn:Hex.
  - split; [by vm_compute in Hex; injection Hex as <-|].
    apply (cleanups_hold_every_monitor stubbornEnv w).
    apply (reachable_execs stubbornEnv schedule0 New w); [apply reachable_New|exact Hex].
  - vm_compute in Hex. discriminate Hex.
Defined.

(** X12: in every reachable world each transport and each monitor is under a
    registered identity, and no identity has two transports or two
    monitors. *)
Theorem reachable_one_per_registered_identity env w :
  reachable env w ->
  (forall o, o ∈ transports w -> registered (optID o) w) /\
  (forall mon, mon ∈ monitors w -> registered (ID (monWW mon)) w) /\
  forall id, (length (transportsOf id w) <= 1)%nat /\ (length (monitorsOf id w) <= 1)%nat.
Proof.
  intros Hr. destruct (reachable_registry_covers env w Hr) as [Ht Hm].
  split; [exact Ht|]. split; [exact Hm|]. by apply (reachable_unique_per_id env).
Qed.

Lemma reachable_one_per_registered_identity_witness :
  after (execs stubbornEnv (schedule0 ++ [opScanner 0 onTimer]) New) (fun w =>
    (forall o, o ∈ transports w -> registered (optID o) w) /\
    (forall mon, mon ∈ monitors w -> registered (ID (monWW mon)) w) /\
    forall id, (length (transportsOf id w) <= 1)%nat /\
               (length (monitorsOf id w) <= 1)%nat).
Proof.
  destruct (execs stubbornEnv (schedule0 ++ [opScanner 0 onTimer]) New) as [w|] eqn:Hex.
  - apply (reachable_one_per_registered_identity stubbornEnv w).
    apply (reachable_execs stubbornEnv (schedule0 ++ [opScanner 0 onTimer]) New w);
      [apply reachable_New|exact Hex].
  - vm_compute in Hex. discriminate Hex.
Defined.

(** ** Who writes the active flag *)

#[local] Instance noWrites_preorder : PreOrder noWrites.
Proof. split; [by intros w|]. intros w1 w2 w3. unfold noWrites. congruence. Qed.

Lemma noWrites_record e w : writeOf e = None -> noWrites w (record e w).
Proof. intros He. unfold noWrites. rewrite writes_record, He. apply app_nil_r. Qed.

Lemma noWrites_run env tenantId ww token w w' r :
  run env tenantId ww token w = (w', r) -> noWrites w w'.
Proof.
  intros H. apply run_history in H as (_ & l & Hh & Hl). unfold noWrites, writes.
  rewrite Hh, omap_app. cbn.
  destruct Hl as [->|[[o ->]|[o ->]]]; cbn; apply app_nil_r.
Qed.

Lemma noWrites_call env fuel f w w' o : call env fuel f w = (w', o) -> noWrites w w'.
Proof.
  apply (call_turn noWrites); try (intros; by unfold noWrites).
  intros. by apply noWrites_record.
Qed.

Lemma noWrites_check env w : noWrites w (check env w).1.
Proof.
  apply (check_turn noWrites); try (intros; by unfold noWrites);
    try (intros; by apply noWrites_record).
  intros. by eapply noWrites_run.
Qed.

(** X13: the scan, the startup and every release function, the shutdown
    included, leave the persisted active flag alone: it is written by
    monitor ticks only. *)
Theorem only_ticks_write_active_flag env w :
  writes (check env w).1 = writes w /\
  (forall tenantId ww token, writes (run env tenantId ww token w).1 = writes w) /\
  (forall fuel f, writes (call env fuel f w).1 = writes w).
Proof.
  split; [apply noWrites_check|]. split.
  - intros tenantId ww token.
    destruct (run env tenantId ww token w) as [w' r] eqn:Hrun. by eapply noWrites_run.
  - intros fuel f. destruct (call env fuel f w) as [w' o] eqn:Hcall.
    by eapply noWrites_call.
Qed.

(** X14: one tick of a monitor writes the active flag at most once, and
    only in the record of the monitor's own worker and tenant. *)
Theorem tick_writes_own_worker env m w mon :
  monitors w !! m = Some mon ->
  exists l,
    writes (tick env m w).1 = writes w ++ l /\
    (l = [] \/ exists b, l = [(monTenantId mon, ID (monWW mon), b)]).
Proof.
  intros Hm. unfold tick. rewrite Hm. unfold healthcheck.
  destruct (match httpGet env (history w) (monWW mon) with
            | BadRequest _ | _ => _ end) as [e|h].
  - destruct (3 <? _); cbn [fst].
    + eexists. rewrite writes_updateWorker. split; [|right; eauto].
      unfold writes. cbn. rewrite omap_app. cbn. by rewrite app_nil_r.
    + exists []. split; [|by left]. unfold writes. cbn. by rewrite omap_app.
  - destruct (negb _ || negb _).
    + exists []. split; [|by left]. rewrite app_nil_r.
      match goal with
      | |- context [rangeLog (call env ?fuel) ?cs ?w0] =>
          assert (Hw0 : writes w0 = writes w)
            by (unfold writes; cbn; rewrite omap_app; cbn; apply app_nil_r);
          destruct (rangeLog (call env fuel) cs w0) as [w4 [[]|v|]] eqn:Hrange
      end.
      all: apply (rangeLog_frame noWrites) in Hrange;
        [|intros ? ? ? ?; apply noWrites_call].
      * destruct (run env _ _ _ w4) as [w5 [c err]] eqn:Hrun.
        apply noWrites_run in Hrun. cbn [fst].
        transitivity (writes w5); [by destruct err|]. by rewrite Hrun, Hrange.
      * cbn [fst]. by rewrite Hrange.
      * cbn [fst]. by rewrite Hrange.
    + cbn [fst]. eexists. split; [|right; eauto].
      change (writes (updMonitor m ?f ?w0)) with (writes w0).
      rewrite writes_updateWorker. f_equal.
      destruct (0 <? _); unfold writes; cbn; rewrite omap_app; cbn; apply app_nil_r.
Qed.

Lemma tick_writes_own_worker_witness :
  exists l,
    writes (tick steadyEnv 0 (started1 steadyEnv)).1 = writes (started1 steadyEnv) ++ l /\
    (l = [] \/ exists b, l = [("t1", "w1", b)]).
Proof.
  apply (tick_writes_own_worker steadyEnv 0 (started1 steadyEnv)
           (spawnMonitor "t1" worker1 "token-t1" [workerCleanup 0]
              {| Actions := ["a"; "b"]; Workflows := ["wf"] |})).
  vm_compute. reflexivity.
Defined.

(** ** The scan *)

Lemma probes_run env tenantId ww token w w' r :
  run env tenantId ww token w = (w', r) -> probes w' = probes w ++ [ww].
Proof.
  intros H. apply run_history in H as (_ & l & Hh & Hl). unfold probes.
  rewrite Hh, omap_app. cbn. by destruct Hl as [->|[[o ->]|[o ->]]].
Qed.

(** X9: the scan of one tenant probes every listed worker once, in listing
    order, whatever happens to the workers before it: no failure of a worker
    keeps a later one from its startup. *)
Theorem scan_probes_every_listed_worker env tenantId token wws w :
  probes (checkWorkers env tenantId token wws w) = probes w ++ wws.
Proof.
  revert w. induction wws as [|ww wws IH]; intros w; cbn [checkWorkers];
    [by rewrite app_nil_r|].
  destruct (run env tenantId ww token w) as [w1 [c err]] eqn:Hrun.
  apply probes_run in Hrun.
  assert (Hcons : probes w ++ ww :: wws = (probes w ++ [ww]) ++ wws)
    by (by rewrite <- app_assoc).
  rewrite Hcons, <- Hrun.
  destruct err as [err|]; [by rewrite IH|]. destruct c; by rewrite IH.
Qed.

Lemma idle_checkWorkers env tenantId token wws : forall w,
  (forall ww, ww ∈ wws -> registered (ID ww) w) ->
  idle w (checkWorkers env tenantId token wws w).
Proof.
  induction wws as [|ww wws IH]; intros w Hreg; cbn [checkWorkers]; [done|].
  destruct (run_registered env tenantId ww token w) as [err ->];
    [apply Hreg; by left|].
  assert (Hrest : forall w1, registeredWorkerIds w1 = registeredWorkerIds w ->
                             forall ww', ww' ∈ wws -> registered (ID ww') w1).
  { intros w1 Hr ww' Hin. unfold registered. rewrite Hr. apply Hreg. by right. }
  destruct err as [err|].
  - match goal with
    | |- idle w (checkWorkers _ _ _ _ ?w1) =>
        destruct (IH w1 (Hrest w1 eq_refl)) as (? & ? & ? & ?)
    end.
    by repeat split.
  - destruct (IH (record (CallHealthcheck ww) w) (Hrest _ eq_refl)) as (? & ? & ? & ?).
    by repeat split.
Qed.

(** X10: a scan in which every worker listed is already registered changes
    nothing of the controller: no identity is registered, no transport
    started, no monitor spawned and no cleanup appended. *)
Theorem rescan_starts_nothing env w :
  (forall hist tenantId wws ww,
     ListWebhookWorkers env hist tenantId = inr wws -> ww ∈ wws -> registered (ID ww) w) ->
  registeredWorkerIds (check env w).1 = registeredWorkerIds w /\
  transports (check env w).1 = transports w /\
  monitors (check env w).1 = monitors w /\
  cleanups (check env w).1 = cleanups w.
Proof.
  intros Hall. unfold check. destruct (ListTenants env _) as [err|tenants]; [done|].
  change (idle (record CallListTenants w) (checkTenants env tenants (record CallListTenants w)).1
          ).
  assert (Hall' : forall hist tenantId wws ww,
            ListWebhookWorkers env hist tenantId = inr wws -> ww ∈ wws ->
            registered (ID ww) (record CallListTenants w)) by exact Hall.
  revert Hall'. generalize (record CallListTenants w). clear w Hall.
  induction tenants as [|tenantId tenants IH]; intros w Hall; cbn [checkTenants]; [done|].
  cbv zeta. destruct (GenerateTenantToken env _ _) as [err|token]; [done|].
  destruct (ListWebhookWorkers env _ _) as [err|wws] eqn:Hlist; [done|].
  match goal with
  | |- context [checkWorkers env tenantId token wws ?w0] =>
      destruct (idle_checkWorkers env tenantId token wws w0) as (Hr & Ht & Hm & Hc);
      [intros ww Hin; by apply (Hall _ _ _ _ Hlist)|];
      destruct (IH (checkWorkers env tenantId token wws w0)) as (Hr' & Ht' & Hm' & Hc')
  end.
  { intros hist t wws' ww Hl Hin. unfold registered. rewrite Hr. by apply (Hall _ _ _ _ Hl). }
  unfold idle. rewrite Hr', Ht', Hm', Hc'. done.
Qed.

Lemma rescan_starts_nothing_witness :
  registeredWorkerIds (check steadyEnv (scanned steadyEnv)).1
  = registeredWorkerIds (scanned steadyEnv) /\
  transports (check steadyEnv (scanned steadyEnv)).1 = transports (scanned steadyEnv) /\
  monitors (check steadyEnv (scanned steadyEnv)).1 = monitors (scanned steadyEnv) /\
  cleanups (check steadyEnv (scanned steadyEnv)).1 = cleanups (scanned steadyEnv).
Proof.
  apply (rescan_starts_nothing steadyEnv (scanned steadyEnv)).
  intros hist tenantId wws ww [= <-] Hin.
  apply list_elem_of_singleton in Hin as ->. vm_compute. eexists. reflexivity.
Defined.

(** ** The closure [run] returns *)

Lemma call_runCleanup env fuel m w mon t :
  monitors w !! m = Some mon ->
  monCleanups mon = [workerCleanup t] ->
  call env (S fuel) (runCleanup m) w
  = (record (CallRelease t) (updMonitor m cancelMonitor w),
     Returned (wrapError "could not cleanup webhook worker"
                 <$> releaseWorker env (history w) t)).
Proof.
  intros Hm Hcs. cbn [call]. rewrite Hm, Hcs. cbn [rangeReturn].
  assert (Hc : call env fuel (workerCleanup t) (updMonitor m cancelMonitor w)
               = (record (CallRelease t) (updMonitor m cancelMonitor w),
                  Returned (releaseWorker env (history w) t))) by (by destruct fuel).
  rewrite Hc. by destruct (releaseWorker env (history w) t).
Qed.

(** X7: the closure [run] returns cancels the monitor, calls the release
    function of the transport and returns its error wrapped; it keeps no
    record of having run, so a second call releases the transport a second
    time. *)
Theorem run_closure_releases_at_each_call env fuel m w mon t :
  monitors w !! m = Some mon ->
  monCleanups mon = [workerCleanup t] ->
  (call env (S fuel) (runCleanup m) w).2
  = Returned (wrapError "could not cleanup webhook worker"
                <$> releaseWorker env (history w) t) /\
  monitors (call env (S fuel) (runCleanup m) w).1 !! m = Some (cancelMonitor mon) /\
  releases (call env (S fuel) (runCleanup m) w).1 = releases w ++ [t] /\
  releases (call env (S fuel) (runCleanup m) (call env (S fuel) (runCleanup m) w).1).1
  = releases w ++ [t; t].
Proof.
  intros Hm Hcs. rewrite (call_runCleanup env fuel m w mon t Hm Hcs). cbn [fst snd].
  assert (Hm1 : monitors (record (CallRelease t) (updMonitor m cancelMonitor w)) !! m
                = Some (cancelMonitor mon)) by (by apply alter_lookup_Some).
  split; [done|]. split; [exact Hm1|].
  rewrite (call_runCleanup env fuel m _ _ t Hm1 Hcs). cbn [fst].
  unfold releases. cbn. rewrite !omap_app. cbn. by rewrite <- app_assoc.
Qed.

Lemma run_closure_releases_at_each_call_witness :
  (call steadyEnv 1 (runCleanup 0) (started1 steadyEnv)).2 = Returned None /\
  ctxDone <$> monitors (call steadyEnv 1 (runCleanup 0) (started1 steadyEnv)).1 !! 0%nat
  = Some true /\
  releases (call steadyEnv 1 (runCleanup 0) (started1 steadyEnv)).1 = [0%nat] /\
  releases (call steadyEnv 1 (runCleanup 0)
              (call steadyEnv 1 (runCleanup 0) (started1 steadyEnv)).1).1
  = [0%nat; 0%nat].
Proof.
  destruct (run_closure_releases_at_each_call steadyEnv 0 0 (started1 steadyEnv)
              (spawnMonitor "t1" worker1 "token-t1" [workerCleanup 0]
                 {| Actions := ["a"; "b"]; Workflows := ["wf"] |}) 0%nat)
    as (H1 & H2 & H3 & H4); [vm_compute; reflexivity|reflexivity|].
  split; [exact H1|]. split; [by rewrite H2|]. split; [exact H3|exact H4].
Defined.

(** X8: once the closure [run] returned has been called, the monitor can
    take its [Done] case and return; after that it never takes a turn again,
    whatever is scheduled. *)
Theorem cancelled_monitor_ends env fuel m w mon t :
  monitors w !! m = Some mon ->
  monCleanups mon = [workerCleanup t] ->
  returned mon = false ->
  panicked w = None ->
  exists w2,
    exec env (opMonitor m onDone) (call env (S fuel) (runCleanup m) w).1 = Some w2 /\
    forall ops w3 k, execs env ops w2 = Some w3 -> monitorStep env m k w3 = None.
Proof.
  intros Hm Hcs Hlive Hp. rewrite (call_runCleanup env fuel m w mon t Hm Hcs). cbn [fst].
  set (w1 := record (CallRelease t) (updMonitor m cancelMonitor w)).
  assert (Hm1 : monitors w1 !! m = Some (cancelMonitor mon)) by (by apply alter_lookup_Some).
  exists (updMonitor m returnMonitor w1). split.
  - unfold exec, monitorStep. cbn [w1 record panicked updMonitor setMonitors].
    rewrite Hp. fold w1. rewrite Hm1. cbn. by rewrite Hlive.
  - intros ops w3 k Hex.
    assert (Hm2 : monitors (updMonitor m returnMonitor w1) !! m
                  = Some (returnMonitor (cancelMonitor mon)))
      by (by apply alter_lookup_Some).
    destruct (execs_monitorsEvolve env ops _ w3 Hex m _ Hm2)
      as (c & Hc & (_ & _ & _ & _ & _ & Hret)).
    destruct (Hret eq_refl) as [Hr _].
    unfold monitorStep. by rewrite Hc, Hr.
Qed.

Lemma cancelled_monitor_ends_witness :
  exists w2,
    exec steadyEnv (opMonitor 0 onDone)
      (call steadyEnv 1 (runCleanup 0) (started1 steadyEnv)).1 = Some w2 /\
    forall ops w3 k, execs steadyEnv ops w2 = Some w3 -> monitorStep steadyEnv 0 k w3 = None.
Proof.
  apply (cancelled_monitor_ends steadyEnv 0 0 (started1 steadyEnv)
           (spawnMonitor "t1" worker1 "token-t1" [workerCleanup 0]
              {| Actions := ["a"; "b"]; Workflows := ["wf"] |}) 0%nat);
    [vm_compute; reflexivity|reflexivity..].
Defined.

(** ** Shutdown when every release succeeds *)

Lemma omap_lookup_seq {A B} (f : A -> option B) (l : list A) : forall pre,
  omap (fun i => (pre ++ l) !! i ≫= f) (seq (length pre) (length l)) = omap f l.
Proof.
  induction l as [|x l IH]; intros pre; [done|].
  cbn [length seq omap list_omap].
  rewrite (list_lookup_middle pre l x (length pre) eq_refl). cbn [mbind option_bind].
  specialize (IH (pre ++ [x])). rewrite length_app, <- app_assoc in IH. cbn in IH.
  rewrite Nat.add_1_r in IH. by rewrite IH.
Qed.

Lemma rangeReturn_runCleanups env fuel idxs : forall w,
  (forall h t, releaseWorker env h t = None) ->
  (forall i, i ∈ idxs -> exists cs t, (monCleanups <$> monitors w) !! i = Some cs /\
                                      cs = [workerCleanup t]) ->
  exists w',
    rangeReturn (call env (S fuel)) (runCleanup <$> idxs) w = (w', Returned None) /\
    monitorsEvolve w w' /\ sameClosures w w' /\
    scanners w' = scanners w /\
    (forall i, i ∈ idxs -> exists b, monitors w' !! i = Some b /\ ctxDone b = true) /\
    releases w'
    = releases w ++ omap (fun i => (monCleanups <$> monitors w) !! i ≫= transportIn) idxs.
Proof.
  induction idxs as [|i idxs IH]; intros w Hrel Hall.
  - exists w. cbn. rewrite app_nil_r. repeat split; try done.
    intros i Hi. by apply elem_of_nil in Hi.
  - destruct (Hall i) as (cs & t & Hcs & ->); [by left|].
    rewrite list_lookup_fmap in Hcs.
    destruct (monitors w !! i) as [mon|] eqn:Hm; [|done]. injection Hcs as Hcs.
    cbn [fmap list_fmap rangeReturn].
    rewrite (call_runCleanup env fuel i w mon t Hm Hcs), Hrel. cbn [fmap option_fmap option_map].
    set (w1 := record (CallRelease t) (updMonitor i cancelMonitor w)).
    assert (Hs1 : sameClosures w w1) by (by apply (sameClosures_upd i cancelMonitor w)).
    assert (He1 : monitorsEvolve w w1) by apply monitorsEvolve_cancel.
    destruct (IH w1 Hrel) as (w' & Hrun & He & Hs & Hsc & Hdone & Hrels).
    { intros j Hj. destruct Hs1 as [_ ->]. apply Hall. by right. }
    exists w'. split; [exact Hrun|]. split; [by etransitivity|]. split; [by etransitivity|].
    split; [by rewrite Hsc|]. split.
    + intros j Hj. apply elem_of_cons in Hj as [->|Hj]; [|by apply Hdone].
      destruct (He i (cancelMonitor mon)) as (b & Hb & (_ & _ & _ & _ & Hd & _));
        [by apply alter_lookup_Some|].
      exists b. split; [exact Hb|by apply Hd].
    + rewrite Hrels. destruct Hs1 as [_ ->].
      cbn [omap list_omap]. rewrite list_lookup_fmap, Hm. cbn. rewrite Hcs. cbn.
      unfold releases, w1. cbn. rewrite omap_app. cbn. by rewrite <- app_assoc.
Qed.

Lemma call_startCleanup env fuel s w sc :
  scanners w !! s = Some sc ->
  call env (S fuel) (startCleanup s) w
  = rangeReturn (call env fuel) (cleanups w) (setScanners (alter cancelScanner s) w).
Proof. intros Hsc. cbn [call]. by rewrite Hsc. Qed.

(** X17: when no release fails and every monitor still holds the release
    function of its transport, the shutdown function cancels the scanner and
    every monitor, releases every transport once, in spawn order, and returns
    nil. *)
Theorem shutdown_releases_everything env s w :
  (forall h t, releaseWorker env h t = None) ->
  is_Some (scanners w !! s) ->
  cleanups w = runCleanup <$> seq 0 (length (monitors w)) ->
  Forall (fun mon => exists t, monCleanups mon = [workerCleanup t]) (monitors w) ->
  (call env (fuelOf w) (startCleanup s) w).2 = Returned None /\
  Forall (fun mon => ctxDone mon = true) (monitors (call env (fuelOf w) (startCleanup s) w).1) /\
  scanCtxDone <$> scanners (call env (fuelOf w) (startCleanup s) w).1 !! s = Some true /\
  releases (call env (fuelOf w) (startCleanup s) w).1
  = releases w ++ omap transportOf (monitors w).
Proof.
  intros Hrel [sc Hsc] Hcs Hall. unfold fuelOf.
  rewrite (call_startCleanup env _ s w sc Hsc), Hcs.
  set (w0 := setScanners (alter cancelScanner s) w).
  destruct (rangeReturn_runCleanups env (length (monitors w))
              (seq 0 (length (monitors w))) w0 Hrel)
    as (w' & -> & He & Hs & Hscs & Hdone & Hrels).
  { intros i Hi. apply list_elem_of_lookup in Hi as [k Hk].
    apply lookup_seq in Hk as [-> Hlt]. cbn.
    destruct (lookup_lt_is_Some_2 (monitors w) k Hlt) as [mon Hmon].
    destruct (Forall_lookup_1 _ _ _ _ Hall Hmon) as [t Ht].
    exists [workerCleanup t], t. by rewrite list_lookup_fmap, Hmon, <- Ht. }
  cbn [fst snd]. split; [done|]. split; [|split].
  - apply Forall_lookup. intros i b Hb.
    assert (Hlt : (i < length (monitors w))%nat).
    { pose proof (sameClosures_length w0 w' Hs) as Hl. cbn in Hl. rewrite <- Hl.
      by eapply lookup_lt_Some. }
    destruct (Hdone i) as (b' & Hb' & Hd); [|congruence].
    apply list_elem_of_lookup. exists i. apply lookup_seq. done.
  - rewrite Hscs. cbn. by rewrite list_lookup_alter_eq, Hsc.
  - rewrite Hrels. f_equal. cbn [w0 setScanners monitors].
    transitivity (omap transportIn (monCleanups <$> monitors w)).
    + rewrite <- (length_fmap monCleanups (monitors w)).
      exact (omap_lookup_seq transportIn (monCleanups <$> monitors w) []).
    + unfold transportOf. clear. induction (monitors w) as [|a l IH]; cbn; [done|].
      destruct (transportIn _); by f_equal.
Qed.

Lemma shutdown_releases_everything_witness :
  (call steadyEnv (fuelOf (scanned steadyEnv)) (startCleanup 0) (scanned steadyEnv)).2
  = Returned None /\
  Forall (fun mon => ctxDone mon = true)
    (monitors (call steadyEnv (fuelOf (scanned steadyEnv)) (startCleanup 0)
                 (scanned steadyEnv)).1) /\
  scanCtxDone <$> scanners (call steadyEnv (fuelOf (scanned steadyEnv)) (startCleanup 0)
                              (scanned steadyEnv)).1 !! 0%nat = Some true /\
  releases (call steadyEnv (fuelOf (scanned steadyEnv)) (startCleanup 0)
              (scanned steadyEnv)).1
  = releases (scanned steadyEnv) ++ omap transportOf (monitors (scanned steadyEnv)).
Proof.
  apply (shutdown_releases_everything steadyEnv 0 (scanned steadyEnv)).
  - intros h t. reflexivity.
  - vm_compute. eexists. reflexivity.
  - vm_compute. reflexivity.
  - vm_compute. repeat constructor. eexists. reflexivity.
Defined.

(** ** The monitor's timer and its restart *)

(** X18: a monitor takes the [timer.C] case of its [select] at most once:
    after its first tick that case is never ready again, whatever is
    scheduled in between. *)
Theorem monitor_ticks_at_most_once env m w w1 ops w2 :
  monitorStep env m onTimer w = Some w1 ->
  execs env ops w1 = Some w2 ->
  monitorStep env m onTimer w2 = None.
Proof. apply timer_fires_once. Qed.

Lemma monitor_ticks_at_most_once_witness :
  after (monitorStep steadyEnv 0 onTimer (started1 steadyEnv)) (fun w1 =>
    after (execs steadyEnv schedule0 w1) (fun w2 =>
      monitorStep steadyEnv 0 onTimer w2 = None)).
Proof.
  destruct (monitorStep steadyEnv 0 onTimer (started1 steadyEnv)) as [w1|] eqn:Hstep;
    [|vm_compute in Hstep; discriminate Hstep].
  cbn [after].
  destruct (execs steadyEnv schedule0 w1) as [w2|] eqn:Hex.
  - exact (monitor_ticks_at_most_once steadyEnv 0 (started1 steadyEnv) w1 schedule0 w2
             Hstep Hex).
  - vm_compute in Hstep. injection Hstep as <-. vm_compute in Hex. discriminate Hex.
Defined.

(** X16: on a change of fingerprint the monitor calls the release function
    of its transport once, probes once more through [run] and returns; with
    its identity registered, as [run] left it, nothing is registered,
    started or spawned on the way. *)
Theorem change_releases_transport_and_ends_monitor env m w mon h t :
  monitors w !! m = Some mon ->
  monCleanups mon = [workerCleanup t] ->
  registered (ID (monWW mon)) w ->
  probe env (monWW mon) w = inr h ->
  hash (Workflows h) <> wfsHashLast mon \/ hash (Actions h) <> actionsHashLast mon ->
  history (tick env m w).1
  = history w ++ [CallHealthcheck (monWW mon); CallRelease t; CallHealthcheck (monWW mon)] /\
  returned <$> monitors (tick env m w).1 !! m = Some true /\
  registeredWorkerIds (tick env m w).1 = registeredWorkerIds w /\
  transports (tick env m w).1 = transports w /\
  length (monitors (tick env m w).1) = length (monitors w).
Proof.
  intros Hm Hcs Hreg Hp Hch.
  destruct (tick_changed env m w mon h t Hm Hcs Hreg Hp Hch)
    as (w' & -> & Hms & Ht & Hr & Hh).
  cbn [fst]. split; [exact Hh|]. split; [|split; [exact Hr|split; [exact Ht|]]].
  - rewrite Hms.
    by rewrite (alter_lookup_Some returnMonitor _ m (setMonCleanups [nilFunc] mon))
      by (by apply alter_lookup_Some).
  - by rewrite Hms, !length_alter.
Qed.

Lemma change_releases_transport_and_ends_monitor_witness :
  history (tick changedEnv 0 (started1 changedEnv)).1
  = history (started1 changedEnv)
    ++ [CallHealthcheck worker1; CallRelease 0; CallHealthcheck worker1] /\
  returned <$> monitors (tick changedEnv 0 (started1 changedEnv)).1 !! 0%nat = Some true /\
  registeredWorkerIds (tick changedEnv 0 (started1 changedEnv)).1
  = registeredWorkerIds (started1 changedEnv) /\
  transports (tick changedEnv 0 (started1 changedEnv)).1 = transports (started1 changedEnv) /\
  length (monitors (tick changedEnv 0 (started1 changedEnv)).1)
  = length (monitors (started1 changedEnv)).
Proof.
  apply (change_releases_transport_and_ends_monitor changedEnv 0 (started1 changedEnv)
           (spawnMonitor "t1" worker1 "token-t1" [workerCleanup 0]
              {| Actions := ["a"; "b"]; Workflows := ["wf"] |})
           {| Actions := ["a"; "b"; "c"]; Workflows := ["wf"] |} 0%nat).
  - vm_compute. reflexivity.
  - reflexivity.
  - vm_compute. eexists. reflexivity.
  - vm_compute. reflexivity.
  - right. vm_compute. discriminate.
Defined.

(** ** How a scan ends *)

(** X19: when the tenants cannot be listed, the scan calls no other
    collaborator and changes nothing of the controller; the scanner logs the
    error and stays in its loop, where the next tick scans again. *)
Theorem tenant_listing_failure_is_logged env s w sc e :
  panicked w = None ->
  scanners w !! s = Some sc ->
  scanReturned sc = false ->
  ListTenants env (history w) = inl e ->
  exec env (opScanner s onTimer) w
  = Some (logf ("error checking webhooks: could not list tenants: " +:+ Error e)
            (record CallListTenants w)) /\
  is_Some (exec env (opScanner s onTimer)
             (logf ("error checking webhooks: could not list tenants: " +:+ Error e)
                (record CallListTenants w))).
Proof.
  intros Hp Hsc Hlive Hl.
  assert (Hex : exec env (opScanner s onTimer) w
                = Some (logf ("error checking webhooks: could not list tenants: "
                              +:+ Error e) (record CallListTenants w))).
  { unfold exec, scannerStep, check. by rewrite Hp, Hsc, Hlive, Hl. }
  split; [exact Hex|].
  unfold exec, scannerStep. cbn [logf record panicked scanners]. rewrite Hp, Hsc, Hlive.
  match goal with
  | |- context [check env ?w0] =>
      pose proof (check_finishes env w0) as Hfin; destruct (check env w0) as [w1 [[err|]|v|]]
  end; by eauto.
Qed.

Lemma tenant_listing_failure_is_logged_witness :
  exec noTenantsEnv (opScanner 0 onTimer) (Start New).1
  = Some (logf "error checking webhooks: could not list tenants: connection reset"
            (record CallListTenants (Start New).1)) /\
  is_Some (exec noTenantsEnv (opScanner 0 onTimer)
             (logf "error checking webhooks: could not list tenants: connection reset"
                (record CallListTenants (Start New).1))).
Proof.
  apply (tenant_listing_failure_is_logged noTenantsEnv 0 (Start New).1
           {| scanCtxDone := false; scanReturned := false |}
           (errorString "connection reset")); reflexivity.
Defined.

Lemma checkTenants_token_error env tenantId tenants w e :
  GenerateTenantToken env (history w) tenantId = inl e ->
  checkTenants env (tenantId :: tenants) w
  = (record (CallGenerateTenantToken tenantId) w,
     Panicked (panicError
                 (errorString ("could not generate default token: " +:+ Error e)))).
Proof. intros Ht. cbn [checkTenants]. cbv zeta. by rewrite Ht. Qed.

Lemma checkTenants_panic_is_token env tenants : forall w v,
  (checkTenants env tenants w).2 = Panicked v ->
  exists tenantId hist e,
    tenantId ∈ tenants /\
    history (checkTenants env tenants w).1 = hist ++ [CallGenerateTenantToken tenantId] /\
    GenerateTenantToken env hist tenantId = inl e /\
    v = panicError (errorString ("could not generate default token: " +:+ Error e)).
Proof.
  induction tenants as [|tenantId tenants IH]; intros w v; cbn [checkTenants]; [done|].
  cbv zeta. destruct (GenerateTenantToken env _ _) as [e|token] eqn:Htok.
  - intros [= <-]. exists tenantId, (history w), e.
    split; [apply list_elem_of_here|]. by split.
  - destruct (ListWebhookWorkers env _ _) as [err|wws]; [done|]. intros H.
    destruct (IH _ _ H) as (t & hist & e & Hin & Hh & Ht & Hv).
    exists t, hist, e. split; [by apply list_elem_of_further|]. by split.
Qed.

Lemma check_panic_is_token env w v :
  (check env w).2 = Panicked v ->
  exists tenants tenantId hist e,
    ListTenants env (history w) = inr tenants /\
    tenantId ∈ tenants /\
    history (check env w).1 = hist ++ [CallGenerateTenantToken tenantId] /\
    GenerateTenantToken env hist tenantId = inl e /\
    v = panicError (errorString ("could not generate default token: " +:+ Error e)).
Proof.
  unfold check. destruct (ListTenants env _) as [err|tenants]; [done|]. intros H.
  destruct (checkTenants_panic_is_token env tenants _ v H) as (t & hist & e & ? & ? & ? & ?).
  by exists tenants, t, hist, e.
Qed.

(** X20: a scan panics only when the token issuer fails for one of the
    listed tenants: that call of [GenerateTenantToken] is the last thing the
    scan did and its error is in the panic value.  The scanner's turn then
    leaves the process panicked, and from then on no goroutine takes a turn
    and no shutdown runs. *)
Theorem token_failure_kills_process env s w sc v :
  panicked w = None ->
  scanners w !! s = Some sc ->
  scanReturned sc = false ->
  (check env w).2 = Panicked v ->
  (exists tenants tenantId hist e,
     ListTenants env (history w) = inr tenants /\
     tenantId ∈ tenants /\
     history (check env w).1 = hist ++ [CallGenerateTenantToken tenantId] /\
     GenerateTenantToken env hist tenantId = inl e /\
     v = panicError (errorString ("could not generate default token: " +:+ Error e))) /\
  exec env (opScanner s onTimer) w = Some (setPanicked v (check env w).1) /\
  forall ops w', ops <> [] -> execs env ops (setPanicked v (check env w).1) = Some w' -> False.
Proof.
  intros Hp Hsc Hlive Hc. split; [by apply (check_panic_is_token env w)|]. split.
  - unfold exec, scannerStep. rewrite Hp, Hsc, Hlive.
    destruct (check env w) as [w1 o]. cbn in Hc. by subst o.
  - intros [|o ops] w' Hne; [done|]. by cbn.
Qed.

Lemma token_failure_kills_process_witness :
  (exists tenants tenantId hist e,
     ListTenants noTokenEnv (history (Start New).1) = inr tenants /\
     tenantId ∈ tenants /\
     history (check noTokenEnv (Start New).1).1
     = hist ++ [CallGenerateTenantToken tenantId] /\
     GenerateTenantToken noTokenEnv hist tenantId = inl e /\
     panicError (errorString "could not generate default token: signing key missing")
     = panicError (errorString ("could not generate default token: " +:+ Error e))) /\
  exec noTokenEnv (opScanner 0 onTimer) (Start New).1
  = Some (setPanicked (panicError (errorString
            "could not generate default token: signing key missing"))
            (check noTokenEnv (Start New).1).1) /\
  forall ops w', ops <> [] ->
    execs noTokenEnv ops
      (setPanicked (panicError (errorString
         "could not generate default token: signing key missing"))
         (check noTokenEnv (Start New).1).1) = Some w' -> False.
Proof.
  apply (token_failure_kills_process noTokenEnv 0 (Start New).1
           {| scanCtxDone := false; scanReturned := false |}); reflexivity.
Defined.

Lemma checkTenants_returns_nil env tenants : forall w,
  (forall h t, exists token, GenerateTenantToken env h t = inr token) ->
  (forall h t, exists wws, ListWebhookWorkers env h t = inr wws) ->
  (checkTenants env tenants w).2 = Returned None.
Proof.
  induction tenants as [|tenantId tenants IH]; intros w Htok Hlist; cbn [checkTenants];
    [done|].
  cbv zeta. destruct (Htok (history w) tenantId) as [token ->].
  match goal with
  | |- context [ListWebhookWorkers env ?h tenantId] =>
      destruct (Hlist h tenantId) as [wws ->]
  end.
  by apply IH.
Qed.

(** X21: when the tenants are listed, tokens are issued and the workers of
    each tenant are listed, [check] returns nil whatever the startup of the
    workers does: the failures of workers are logged, never returned. *)
Theorem worker_failures_do_not_fail_scan env w tenants :
  ListTenants env (history w) = inr tenants ->
  (forall h t, exists token, GenerateTenantToken env h t = inr token) ->
  (forall h t, exists wws, ListWebhookWorkers env h t = inr wws) ->
  (check env w).2 = Returned None.
Proof.
  intros Hl Htok Hlist. unfold check. rewrite Hl. by apply checkTenants_returns_nil.
Qed.

Lemma worker_failures_do_not_fail_scan_witness :
  (check refusingEnv (Start New).1).2 = Returned None /\
  logs (check refusingEnv (Start New).1).1
  = ["error running webhook worker: could not start webhook worker: dial failed"].
Proof.
  split; [|vm_compute; reflexivity].
  apply (worker_failures_do_not_fail_scan refusingEnv (Start New).1 ["t1"]).
  - reflexivity.
  - intros h t. eexists. reflexivity.
  - intros h t. eexists. reflexivity.
Defined.

(** * The counter and the flag in the runs of the program *)

#[local] Instance gaugesKept_preorder : PreOrder gaugesKept.
Proof.
  split.
  - intros w i a Ha. by exists a.
  - intros w1 w2 w3 H12 H23 i a Ha.
    destruct (H12 i a Ha) as (b & Hb & Hab). destruct (H23 i b Hb) as (c & Hc & Hbc).
    exists c. split; [done|congruence].
Qed.

#[local] Instance keepsNeverInactive_preorder : PreOrder keepsNeverInactive.
Proof. split; [intros w H; exact H|]. intros w1 w2 w3 H12 H23 H. by apply H23, H12. Qed.

Lemma gaugesKept_same w w' : monitors w' = monitors w -> gaugesKept w w'.
Proof. intros H i a Ha. exists a. by rewrite H. Qed.

Lemma gaugesKept_upd m f w :
  (forall a, gauge (f a) = gauge a) -> gaugesKept w (updMonitor m f w).
Proof.
  intros Hf i a Ha. unfold updMonitor. cbn [setMonitors monitors].
  destruct (decide (m = i)) as [->|Hne].
  - exists (f a). split; [by apply alter_lookup_Some|apply Hf].
  - exists a. split; [by rewrite list_lookup_alter_ne|done].
Qed.

Lemma gaugesKept_call env fuel f w w' o : call env fuel f w = (w', o) -> gaugesKept w w'.
Proof.
  apply (call_frame gaugesKept); try (intros; by apply gaugesKept_same).
  intros m w0. by apply gaugesKept_upd.
Qed.


Lemma never_inactive_same w w' :
  monitors w' = monitors w -> writes w' = writes w -> keepsNeverInactive w w'.
Proof. unfold keepsNeverInactive, never_inactive. intros -> ->. tauto. Qed.

Lemma never_inactive_upd m f w :
  (forall a, monitors w !! m = Some a -> counted a -> counted (f a)) ->
  keepsNeverInactive w (updMonitor m f w).
Proof.
  intros Hf [Hc Hw]. split; [|exact Hw]. cbn. by apply Forall_alter.
Qed.

Lemma counted_gauge a b : gauge b = gauge a -> counted a -> counted b.
Proof. unfold counted. by intros ->. Qed.

Lemma never_inactive_kept w w' :
  length (monitors w') = length (monitors w) ->
  gaugesKept w w' -> noWrites w w' -> keepsNeverInactive w w'.
Proof.
  intros Hl Hg Hw [Hc Hx]. split; [|by rewrite Hw].
  apply Forall_lookup. intros i b Hb.
  destruct (lookup_lt_is_Some_2 (monitors w) i) as [a Ha].
  { rewrite <- Hl. by eapply lookup_lt_Some. }
  destruct (Hg i a Ha) as (b' & Hb' & Hab). assert (b' = b) as -> by congruence.
  apply (counted_gauge a b Hab). by apply (Forall_lookup_1 _ _ _ _ Hc Ha).
Qed.

Lemma never_inactive_call env fuel f w w' o :
  call env fuel f w = (w', o) -> keepsNeverInactive w w'.
Proof.
  intros H. apply never_inactive_kept.
  - by apply still_call in H as (_ & _ & ?).
  - by eapply gaugesKept_call.
  - by eapply noWrites_call.
Qed.

Lemma never_inactive_run env tenantId ww token w w' r :
  run env tenantId ww token w = (w', r) -> keepsNeverInactive w w'.
Proof.
  intros H [Hc Hx]. split; [|by rewrite (noWrites_run _ _ _ _ _ _ _ H)].
  destruct r as [c err].
  apply run_inv in H as (_ & _ & _ & [(_ & _ & -> & _)|(h & _ & _ & _ & _ & _ & ->)]);
    [done|].
  apply Forall_app. split; [done|]. repeat constructor; cbn; [lia..|done].
Qed.

Lemma never_inactive_rangeLog env fuel cs w w' o :
  rangeLog (call env fuel) cs w = (w', o) -> keepsNeverInactive w w'.
Proof.
  apply (rangeLog_frame keepsNeverInactive).
  intros c w0 w0' o0. apply never_inactive_call.
Qed.


Lemma never_inactive_check env w : keepsNeverInactive w (check env w).1.
Proof.
  apply (check_turn keepsNeverInactive).
  all: try (intros env0 t ww tok w0 w0' r; apply never_inactive_run).
  all: intros; apply never_inactive_same; first [done | by apply noWrites_record].
Qed.

Lemma never_inactive_logf line w : keepsNeverInactive w (logf line w).
Proof. by apply never_inactive_same. Qed.

Lemma never_inactive_probe ww w : keepsNeverInactive w (record (CallHealthcheck ww) w).
Proof. apply never_inactive_same; [done|by apply noWrites_record]. Qed.

Lemma never_inactive_gauge m f w :
  (forall a, gauge (f a) = gauge a) -> keepsNeverInactive w (updMonitor m f w).
Proof. intros Hf. apply never_inactive_upd. intros a _. by apply counted_gauge. Qed.

Lemma never_inactive_active env tenantId workerId w :
  keepsNeverInactive w (updateWorker env tenantId workerId true w).
Proof.
  intros [Hc Hw]. split; [by rewrite monitors_updateWorker|].
  rewrite writes_updateWorker. apply Forall_app. split; [done|]. by repeat constructor.
Qed.

Lemma never_inactive_reset m w : keepsNeverInactive w (updMonitor m (setHealthCheckErrors 0) w).
Proof. apply never_inactive_upd. intros a _ _. split; cbn; [lia|done]. Qed.

Lemma never_inactive_return m w : keepsNeverInactive w (updMonitor m returnMonitor w).
Proof. apply never_inactive_upd. intros a _ [Hc _]. split; [exact Hc|done]. Qed.

Ltac peel_counted :=
  repeat first [ apply never_inactive_logf | apply never_inactive_probe
               | apply never_inactive_active | apply never_inactive_reset
               | apply never_inactive_return | by apply never_inactive_gauge
               | etransitivity;
                 [|first [ apply never_inactive_logf | apply never_inactive_active
                         | apply never_inactive_reset | apply never_inactive_return
                         | by apply never_inactive_gauge ]] ].

(** A tick of a monitor whose counter is 0 writes no inactive flag and
    leaves every counter at 0 or 1. *)
Lemma tick_from_zero env m w mon :
  monitors w !! m = Some mon -> healthCheckErrors mon = 0 -> timerC mon = false ->
  keepsNeverInactive w (tick env m w).1.
Proof.
  intros Hm Hc Ht. unfold tick. rewrite Hm. unfold healthcheck.
  destruct (match httpGet env (history w) (monWW mon) with
            | BadRequest _ | _ => _ end) as [e|h].
  - rewrite Hc. change (3 <? wrapInt (0 + 1)) with false. cbn [fst].
    etransitivity; [apply never_inactive_probe|].
    etransitivity; [|apply never_inactive_logf].
    apply never_inactive_upd. intros a Ha _. cbn in Ha. rewrite Hm in Ha. injection Ha as <-.
    split; cbn; [done|]. by rewrite Ht.
  - destruct (negb _ || negb _).
    + destruct (rangeLog _ _ _) as [w4 [[]|v|]] eqn:Hrange;
        apply never_inactive_rangeLog in Hrange.
      * destruct (run env _ _ _ w4) as [w5 [c err]] eqn:Hrun.
        apply never_inactive_run in Hrun. cbn [fst].
        assert (keepsNeverInactive w w5).
        { etransitivity; [|exact Hrun]. etransitivity; [|exact Hrange]. peel_counted. }
        destruct err; peel_counted; done.
      * etransitivity; [|exact Hrange]. peel_counted.
      * etransitivity; [|exact Hrange]. peel_counted.
    + cbn [fst]. destruct (0 <? _); peel_counted.
Qed.

Lemma never_inactive_receive m w : keepsNeverInactive w (updMonitor m receiveTimer w).
Proof. apply never_inactive_upd. intros a _ [Hc _]. split; [exact Hc|done]. Qed.

Lemma never_inactive_setPanicked v w : keepsNeverInactive w (setPanicked v w).
Proof. by apply never_inactive_same. Qed.

(** A monitor takes its tick with the counter at 0: the timer is ready only
    before the first tick. *)
Lemma ready_timer_counter_zero w m mon :
  never_inactive w -> monitors w !! m = Some mon -> timerC mon = true ->
  healthCheckErrors mon = 0.
Proof.
  intros [Hc _] Hm Ht. by apply (Forall_lookup_1 _ _ _ _ Hc Hm).
Qed.

Lemma monitorStep_never_inactive env m k w w' :
  monitorStep env m k w = Some w' -> keepsNeverInactive w w'.
Proof.
  unfold monitorStep. destruct (monitors w !! m) as [mon|] eqn:Hm; [|done].
  destruct (returned mon); [done|]. destruct k.
  - destruct (ctxDone mon); [|done]. intros [= <-]. apply never_inactive_return.
  - destruct (timerC mon) eqn:Ht; [|done]. intros Hstep Hw.
    pose proof (ready_timer_counter_zero w m mon Hw Hm Ht) as Hc.
    pose proof (alter_lookup_Some receiveTimer _ _ _ Hm) as Hm0.
    pose proof (tick_from_zero env m (updMonitor m receiveTimer w) _ Hm0 Hc eq_refl
                  (never_inactive_receive m w Hw)) as Hk.
    destruct (tick env m _) as [w1 [[]|v|]]; [| |done]; injection Hstep as <-;
      [exact Hk|by apply never_inactive_setPanicked].
Qed.

Lemma exec_never_inactive env o w w' : exec env o w = Some w' -> keepsNeverInactive w w'.
Proof.
  unfold exec. destruct (panicked w); [done|]. destruct o as [|s|s k|m k].
  - intros [= <-]. by apply never_inactive_same.
  - destruct (call env _ _ w) as [w1 [r|v|]] eqn:Hcall; [| |done];
      apply never_inactive_call in Hcall; intros [= <-]; [done|].
    etransitivity; [exact Hcall|apply never_inactive_setPanicked].
  - unfold scannerStep. destruct (scanners w !! s) as [sc|]; [|done].
    destruct (scanReturned sc); [done|]. destruct k.
    + destruct (scanCtxDone sc); [|done]. intros [= <-]. by apply never_inactive_same.
    + pose proof (never_inactive_check env w) as Hc.
      destruct (check env w) as [w1 [[err|]|v|]]; [| | |done]; intros [= <-];
        cbn [fst] in Hc; [|done|].
      * etransitivity; [exact Hc|apply never_inactive_logf].
      * etransitivity; [exact Hc|apply never_inactive_setPanicked].
  - apply monitorStep_never_inactive.
Qed.

(** In the worlds the process can be in, no record was written inactive and
    every failure counter is 0 or 1. *)
Lemma reachable_never_inactive env w : reachable env w -> never_inactive w.
Proof.
  induction 1 as [|o w w' _ IH Hex]; [by split; constructor|].
  by apply (exec_never_inactive env o w w').
Qed.

(** ** A successful probe *)






(** ** A failed probe *)

(** A tick whose probe fails, taken with the counter at 0. *)
Lemma tick_failed_first env m w mon :
  monitors w !! m = Some mon ->
  healthCheckErrors mon = 0 ->
  failed (probe env (monWW mon) w) ->
  tick env m w
  = (logf ("webhook worker " +:+ ID (monWW mon) +:+ " of tenant " +:+ monTenantId mon
           +:+ " failed one health check, retrying...")
       (updMonitor m (setHealthCheckErrors 1) (record (CallHealthcheck (monWW mon)) w)),
     Returned ()).
Proof.
  intros Hm Hc Hf. unfold tick. rewrite Hm.
  unfold probe in Hf. destruct (healthcheck env (monWW mon) w) as [w1 r] eqn:Hh.
  cbn in Hf. destruct r as [e|h]; [|done].
  unfold healthcheck in Hh. injection Hh as <- _. by rewrite Hc.
Qed.

(** X15: in a running process, a tick whose probe fails is the first
    failure counted: the counter goes to 1 and the worker is reported as
    retried, the monitor stays in its loop with its fingerprint baseline and
    its release function as they were, the one probe is the only call made,
    so that no transport is started or released and no record is written,
    and nothing of the controller changes. *)
Theorem failed_tick_keeps_monitor env m w w' mon :
  reachable env w ->
  monitors w !! m = Some mon ->
  monitorStep env m onTimer w = Some w' ->
  failed (probe env (monWW mon) w) ->
  monitors w' = <[m := setHealthCheckErrors 1 (receiveTimer mon)]> (monitors w) /\
  returned mon = false /\
  history w' = history w ++ [CallHealthcheck (monWW mon)] /\
  logs w' = logs w ++ ["webhook worker " +:+ ID (monWW mon) +:+ " of tenant "
                       +:+ monTenantId mon +:+ " failed one health check, retrying..."] /\
  registeredWorkerIds w' = registeredWorkerIds w /\
  transports w' = transports w /\
  cleanups w' = cleanups w /\
  scanners w' = scanners w /\
  panicked w' = panicked w.
Proof.
  intros Hr Hm Hstep Hf. revert Hstep.
  pose proof (reachable_never_inactive env w Hr) as Hw.
  unfold monitorStep. rewrite Hm.
  destruct (returned mon) eqn:Hlive; [done|]. destruct (timerC mon) eqn:Ht; [|done].
  pose proof (ready_timer_counter_zero w m mon Hw Hm Ht) as Hc.
  pose proof (alter_lookup_Some receiveTimer _ _ _ Hm) as Hm0.
  rewrite (tick_failed_first env m (updMonitor m receiveTimer w) (receiveTimer mon)
             Hm0 Hc Hf).
  intros [= <-]. cbn. repeat split; try reflexivity.
  apply list_eq. intros i. destruct (decide (i = m)) as [->|Hne].
  - rewrite (alter_lookup_Some _ _ _ _ Hm0).
    by rewrite list_lookup_insert_eq by (by eapply lookup_lt_Some).
  - by rewrite !list_lookup_alter_ne, list_lookup_insert_ne.
Qed.

Lemma failed_tick_keeps_monitor_witness :
  after (execs downEnv schedule0 New) (fun w =>
    after (monitorStep downEnv 0 onTimer w) (fun w' =>
      (healthCheckErrors <$> monitors w') = [1] /\
      (returned <$> monitors w') = [false] /\
      (monCleanups <$> monitors w') = (monCleanups <$> monitors w) /\
      history w' = history w ++ [CallHealthcheck worker1] /\
      transports w' = transports w)).
Proof.
  pose proof (reachable_execs downEnv schedule0 New) as Hr.
  destruct (execs downEnv schedule0 New) as [w|] eqn:Hex; [|by vm_compute in Hex].
  specialize (Hr w (reachable_New _) eq_refl). cbn [after].
  destruct (monitorStep downEnv 0 onTimer w) as [w'|] eqn:Hstep;
    [|by vm_compute in Hex; injection Hex as <-; vm_compute in Hstep].
  destruct (monitors w !! 0%nat) as [mon|] eqn:Hm;
    [|by vm_compute in Hex; injection Hex as <-; vm_compute in Hm].
  assert (Hf : failed (probe downEnv (monWW mon) w)).
  { vm_compute in Hex. injection Hex as <-. vm_compute in Hm. injection Hm as <-.
    vm_compute. exact I. }
  destruct (failed_tick_keeps_monitor downEnv 0 w w' mon Hr Hm Hstep Hf)
    as (Hms & _ & Hh & _ & _ & Htr & _).
  cbn [after]. rewrite Hms, Hh, Htr.
  vm_compute in Hex. injection Hex as <-. vm_compute in Hm. injection Hm as <-.
  repeat split; vm_compute; reflexivity.
Defined.

(** ** A worker that stays down *)

(** C2 at its failing input: a worker that is up when it is started and
    unreachable ever after is never written inactive.  Its monitor makes one
    probe, which fails and brings the counter to 1; the monitor then stays in
    its loop, neither cancelled nor returned, and can take no further turn.
    Four more scans later, each with its own failed probe of the worker, the
    counter is still 1 and no record has been written. *)
Theorem down_worker_is_not_written_inactive :
  after (execs downEnv schedule2 New) (fun w =>
    probes w = [worker1; worker1] /\
    (healthCheckErrors <$> monitors w) = [1] /\
    (returned <$> monitors w) = [false] /\
    (ctxDone <$> monitors w) = [false] /\
    writes w = [] /\
    exec downEnv (opMonitor 0 onTimer) w = None /\
    exec downEnv (opMonitor 0 onDone) w = None) /\
  after (execs downEnv (schedule2 ++ replicate 4 (opScanner 0 onTimer)) New) (fun w =>
    probes w = replicate 6 worker1 /\
    (healthCheckErrors <$> monitors w) = [1] /\
    writes w = [] /\
    exec downEnv (opMonitor 0 onTimer) w = None).
Proof. vm_compute. repeat split; reflexivity. Qed.

(** X22: in every world the process can be in, every write of the persisted
    active flag so far wrote [true], and every failure counter is 0 or 1, and
    0 while the timer of its monitor has not fired: the timer fires once, so
    the counter never passes the threshold of 3. *)
Theorem inactive_is_never_written env w :
  reachable env w ->
  Forall (fun x => x.2 = true) (writes w) /\
  Forall (fun mon => 0 <= healthCheckErrors mon <= 1 /\
                     (timerC mon = true -> healthCheckErrors mon = 0)) (monitors w).
Proof.
  intros Hr. destruct (reachable_never_inactive env w Hr) as [Hc Hw]. split; [exact Hw|].
  exact Hc.
Qed.

Lemma inactive_is_never_written_witness :
  after (execs downEnv (schedule2 ++ [opShutdown 0; opMonitor 0 onDone]) New) (fun w =>
    (healthCheckErrors <$> monitors w) = [1] /\
    (returned <$> monitors w) = [true] /\
    Forall (fun x => x.2 = true) (writes w) /\
    Forall (fun mon => 0 <= healthCheckErrors mon <= 1 /\
                       (timerC mon = true -> healthCheckErrors mon = 0)) (monitors w)).
Proof.
  pose proof (reachable_execs downEnv (schedule2 ++ [opShutdown 0; opMonitor 0 onDone]) New)
    as Hr.
  destruct (execs downEnv _ New) as [w|] eqn:Hex; [|by vm_compute in Hex].
  specialize (Hr w (reachable_New _) eq_refl). cbn [after].
  split; [by vm_compute in Hex; injection Hex as <-|].
  split; [by vm_compute in Hex; injection Hex as <-|].
  apply (inactive_is_never_written downEnv w Hr).
Defined.
